(** * Survivor selection (elimination) operators of the TSP genetic algorithm

    A shallow embedding of [src/elimination_operators.py].  The Python
    functions work on list objects that hold references to [Individual]
    objects; the embedding keeps both in an explicit store, so that the
    difference between building a new list ([+], [sorted], slicing) and
    changing one in place ([append], attribute assignment) is visible.

    Fitness values are taken in [Q]: the code only compares them and the
    sharing formula only adds, multiplies and divides them. *)

From Stdlib Require Import ZArith QArith Qminmax Qround Lia Lqa Sorted.
From stdpp Require Import base list gmap sorting.

Local Open Scope Z_scope.

(** ** Python list operations on values *)

Section PyList.
Context {A : Type}.

(** A slice bound [i] against a list of length [n]: a negative bound counts
    from the end, and the outcome is clipped to [0..n]. *)
Definition slice_bound (n : nat) (i : Z) : nat :=
  if i <? 0 then Z.to_nat (i + Z.of_nat n) else Nat.min (Z.to_nat i) n.

(** [l[start:stop]]; an omitted bound is [None]. *)
Definition py_slice (l : list A) (start stop : option Z) : list A :=
  let n := length l in
  let lo := from_option (slice_bound n) 0%nat start in
  let hi := from_option (slice_bound n) n stop in
  take (hi - lo) (drop lo l).

(** [l[i]]; [None] stands for the IndexError of an index out of range. *)
Definition py_index (l : list A) (i : Z) : option A :=
  let j := if i <? 0 then i + Z.of_nat (length l) else i in
  if 0 <=? j then l !! Z.to_nat j else None.

(** [sorted(l, key=key)]: stable, ascending. *)
Fixpoint insert_by (key : A → Q) (x : A) (l : list A) : list A :=
  match l with
  | [] => [x]
  | y :: l' =>
      if Qle_bool (key x) (key y) then x :: l else y :: insert_by key x l'
  end.

Definition sort_by (key : A → Q) (l : list A) : list A :=
  foldr (insert_by key) [] l.

(** The order that sorting by [key] establishes. *)
Definition key_le key : relation A := λ a b, (key a <= key b)%Q.
End PyList.

(** [range(lo, hi)] *)
Definition py_range (lo hi : Z) : list Z :=
  map (λ i, lo + Z.of_nat i) (seq 0 (Z.to_nat (hi - lo))).

(** Index of the first minimum of [x :: l], where [x] sits at index [i]. *)
Fixpoint argmin_from (best : Q) (besti : nat) (i : nat) (l : list Q) : nat :=
  match l with
  | [] => besti
  | x :: l' =>
      if Qle_bool best x then argmin_from best besti (S i) l'
      else argmin_from x i (S i) l'
  end.

Definition argmin (l : list Q) : option nat :=
  match l with
  | [] => None
  | x :: l' => Some (argmin_from x 0 1 l')
  end.

(** [np.argmin(a)] of a nested list: the index of the first minimum of the
    flattened array; [None] stands for the ValueError of an empty one.
    The values are compared as the rationals they are; numpy compares the
    float64 nearest to each, which can tie two values that differ.  Which
    index it is matters to the lemmas on the loop of
    [fitness_sharing_elimination] only; the theorems on what that strategy
    returns use that it is an index of the array. *)
Definition np_argmin (a : list (list Q)) : option nat := argmin (concat a).

(** ** The store *)

(** Identity of an [Individual] object, address of a list object. *)
Abbreviation ref := nat (only parsing).
Abbreviation loc := nat (only parsing).

Inductive exn : Set :=
  | IndexError | ValueError | NameError | AttributeError | TypeError.

Record state := mkState {
  st_fitness : gmap nat Q;           (** attribute [fitness] *)
  st_shared_fitness : gmap nat Q;    (** attribute [shared_fitness] *)
  st_lists : list (list nat);        (** the list objects, by address *)
  st_fitness_sharing : option bool;  (** module global [fitness_sharing] *)
  st_random : nat → nat;             (** the random source, as a stream *)
  st_drawn : nat                     (** how much of it has been consumed *)
}.

Definition with_lists (f : list (list nat) → list (list nat)) (s : state) :=
  mkState (st_fitness s) (st_shared_fitness s) (f (st_lists s))
          (st_fitness_sharing s) (st_random s) (st_drawn s).

Definition with_shared_fitness (f : gmap nat Q → gmap nat Q) (s : state) :=
  mkState (st_fitness s) (f (st_shared_fitness s)) (st_lists s)
          (st_fitness_sharing s) (st_random s) (st_drawn s).

Definition with_drawn (f : nat → nat) (s : state) :=
  mkState (st_fitness s) (st_shared_fitness s) (st_lists s)
          (st_fitness_sharing s) (st_random s) (f (st_drawn s)).

(** ** A state and exception monad *)

Inductive result (A : Type) :=
  | Ok (a : A) (s : state)
  | Raise (e : exn) (s : state).
Arguments Ok {A} a s.
Arguments Raise {A} e s.

Definition M (A : Type) : Type := state → result A.

Definition ret {A} (a : A) : M A := λ s, Ok a s.
Definition raise {A} (e : exn) : M A := λ s, Raise e s.
Definition bind {A B} (m : M A) (k : A → M B) : M B :=
  λ s, match m s with
       | Ok a s' => k a s'
       | Raise e s' => Raise e s'
       end.

Notation "'let!' x ':=' m 'in' k" := (bind m (λ x, k))
  (at level 10, x name, m at level 100, k at level 200).
Notation "m ';;;' k" := (bind m (λ _, k))
  (at level 100, k at level 200, right associativity).

(** The state in which a run ends, whether it returns or raises. *)
Definition final {A} (r : result A) : state :=
  match r with Ok _ s => s | Raise _ s => s end.

Fixpoint mapM {A B} (f : A → M B) (l : list A) : M (list B) :=
  match l with
  | [] => ret []
  | x :: l' => let! y := f x in let! ys := mapM f l' in ret (y :: ys)
  end.

Fixpoint for_each {A} (l : list A) (body : A → M unit) : M unit :=
  match l with
  | [] => ret tt
  | x :: l' => body x ;;; for_each l' body
  end.

(** ** Primitive operations of the Python code *)

(** [r.fitness] *)
Definition getattr_fitness (r : ref) : M Q :=
  λ s, match st_fitness s !! r with
       | Some q => Ok q s
       | None => Raise AttributeError s
       end.

(** [r.shared_fitness = q] *)
Definition setattr_shared_fitness (r : ref) (q : Q) : M unit :=
  λ s, Ok tt (with_shared_fitness (insert r q) s).

(** The contents of a list object; a name that is not bound to a list
    raises TypeError at the first list operation. *)
Definition read_list (l : loc) : M (list nat) :=
  λ s, match st_lists s !! l with
       | Some xs => Ok xs s
       | None => Raise TypeError s
       end.

(** A new list object. *)
Definition new_list (xs : list nat) : M loc :=
  λ s, Ok (length (st_lists s)) (with_lists (λ ls, ls ++ [xs]) s).

(** [len(a)] *)
Definition list_len (a : loc) : M Z :=
  let! xs := read_list a in ret (Z.of_nat (length xs)).

(** [a + b] *)
Definition list_add (a b : loc) : M loc :=
  let! xs := read_list a in
  let! ys := read_list b in
  new_list (xs ++ ys).

(** [a[start:stop]] *)
Definition list_slice (a : loc) (start stop : option Z) : M loc :=
  let! xs := read_list a in new_list (py_slice xs start stop).

(** [a[i]] *)
Definition list_getitem (a : loc) (i : Z) : M ref :=
  let! xs := read_list a in
  match py_index xs i with
  | Some r => ret r
  | None => raise IndexError
  end.

(** [a.append(x)]: the one operation that changes a list in place. *)
Definition list_append (a : loc) (x : ref) : M unit :=
  λ s, match st_lists s !! a with
       | Some xs => Ok tt (with_lists (λ ls, <[a := xs ++ [x]]> ls) s)
       | None => Raise AttributeError s
       end.

(** [sorted(a, key=lambda k: k.fitness, reverse=False)]: the keys are
    computed first, one per element, then a new list is built. *)
Definition sorted_by_fitness (a : loc) : M loc :=
  let! xs := read_list a in
  let! keys := mapM getattr_fitness xs in
  new_list (map snd (sort_by fst (zip keys xs))).

(** Evaluation of the global name [fitness_sharing]. *)
Definition global_fitness_sharing : M bool :=
  λ s, match st_fitness_sharing s with
       | Some b => Ok b s
       | None => Raise NameError s
       end.

(** ** The collaborators that are not part of this module *)

Section Elimination.

(** The genotype distance between two individuals and the power function
    of the sharing formula are supplied from outside. *)
Variable distance : ref → ref → Q.
Variable power : Q → Q → Q.

(** Modelled from the spec: the term that one survivor at distance [d]
    adds to the sharing sum of the penalizer of [fitness_utils] (not in
    src), §4.1: [max(0, 1 - (d/sigma)^alpha)], zero from [sigma] on;
    [sigma] and [alpha] are positive. *)
Definition sharing_term (d : Q) (alpha sigma : Q) : Q :=
  Qmax 0 (1 - power (d / sigma) alpha)%Q.

(** Modelled from the spec: the fitness-sharing penalizer of
    [fitness_utils] (not in src), §4.1: the fitness [f] of the candidate
    [c] times one plus the sharing sum over the survivors; with no
    survivor, [f] times one. *)
Definition shared_fitness_value
    (f : Q) (c : ref) (survivors : list nat) (alpha sigma : Q) : Q :=
  (f * (1 + foldr Qplus 0
              (map (λ x, sharing_term (distance c x) alpha sigma)
                   survivors)))%Q.

(** Modelled from the spec: [calc_shared_fitnesses] of [fitness_utils]
    (not in src): one value for each member of its first argument, by the
    formula of §4.1 against its second; it has no side effect.  §4.1 words
    the formula for a candidate that is not yet a survivor and gives no
    value for one that is; here such a member gets the value of the
    formula too.  The theorems on what [fitness_sharing_elimination]
    returns use the number of the values only, not the values. *)
Definition calc_shared_fitnesses
    (population survivors : loc) (alpha sigma : Q) : M (list Q) :=
  let! pop := read_list population in
  let! sur := read_list survivors in
  mapM (λ c, let! f := getattr_fitness c in
             ret (shared_fitness_value f c sur alpha sigma)) pop.

(** Modelled from the spec: the method [calc_shared_fitness] of the
    individuals (not in src), §4.3 step 3: it recomputes the shared
    fitness of [self] against [others] with the formula of §4.1 and
    stores it in the attribute [shared_fitness]. *)
Definition calc_shared_fitness
    (self : ref) (others : loc) (alpha sigma : Q) : M unit :=
  let! os := read_list others in
  let! f := getattr_fitness self in
  setattr_shared_fitness self (shared_fitness_value f self os alpha sigma).

(** Modelled from the spec: one draw of the random source (§6), uniform
    over [xs] and with replacement: the next number of the stream picks
    the index.  Drawing from an empty list raises IndexError. *)
Definition random_choice (xs : list nat) : M ref :=
  λ s, match xs !! (st_random s (st_drawn s) `mod` length xs)%nat with
       | Some r => Ok r (with_drawn S s)
       | None => Raise IndexError s
       end.

(** Modelled from the spec: the member of [sample] with minimum fitness
    (§4.5 step 3); an empty sample, which a non-positive [k] gives, raises
    ValueError.  The spec does not say which member wins a tie: here it is
    the first, as for [min] with a key, and the theorems on
    [k_tournament_elimination] do not depend on which. *)
Definition min_by_fitness (sample : list nat) : M ref :=
  let! keys := mapM getattr_fitness sample in
  match argmin keys with
  | Some i =>
      match sample !! i with
      | Some r => ret r
      | None => raise IndexError
      end
  | None => raise ValueError
  end.

(** Modelled from the spec: [k_tournament_selection] of
    [selection_operators] (not in src), §4.5 step 3: sample [k]
    individuals uniformly at random with replacement from the pool and
    return the one with minimum fitness. *)
Definition k_tournament_selection (population : loc) (k : Z) : M ref :=
  let! pool := read_list population in
  let! sample := mapM (λ _, random_choice pool) (py_range 0 k) in
  min_by_fitness sample.

(** ** The four elimination strategies *)

(** Lines 29-31, the body of the loop of [fitness_sharing_elimination]. *)
Definition fitness_sharing_step
    (combined survivors : loc) (alpha sigma : Q) : M unit :=
  let! fs := calc_shared_fitnesses combined survivors alpha sigma in
  let fitnesses := [fs] in
  match np_argmin fitnesses with
  | Some idx =>
      let! c := list_getitem combined (Z.of_nat idx) in
      list_append survivors c
  | None => raise ValueError
  end.

Definition fitness_sharing_elimination
    (offspring population : loc) (lambda_ : Z) (alpha sigma : Q) : M loc :=
  let! combined := list_add population offspring in
  let! combined := sorted_by_fitness combined in
  let! c0 := list_getitem combined 0 in
  let! survivors := new_list [c0] in
  for_each (py_range 0 lambda_)
    (λ _, fitness_sharing_step combined survivors alpha sigma) ;;;
  ret survivors.

(** Lines 65-66, the body of the loop of [lambda_plus_mu_elimination]. *)
Definition shared_fitness_update
    (combined : loc) (alpha sigma : Q) (idx : Z) : M unit :=
  let! self := list_getitem combined idx in
  let! before := list_slice combined None (Some idx) in
  let! after := list_slice combined (Some (idx + 1)) None in
  let! others := list_add before after in
  calc_shared_fitness self others alpha sigma.

Definition lambda_plus_mu_elimination
    (offspring population : loc) (lambda_ : Z) (alpha sigma : Q) : M loc :=
  let! combined := list_add population offspring in
  let! combined := sorted_by_fitness combined in
  let! combined := list_slice combined None (Some lambda_) in
  let! fitness_sharing := global_fitness_sharing in
  (if fitness_sharing then
     let! n := list_len combined in
     for_each (py_range 1 n) (shared_fitness_update combined alpha sigma)
   else ret tt) ;;;
  ret combined.

Definition replace_worst
    (offspring population : loc) (lambda_ : Z) : M loc :=
  let! n := list_len offspring in
  let! kept := list_slice population None (Some (- n)) in
  let! combined := list_add kept offspring in
  let! new_combined := sorted_by_fitness combined in
  list_slice new_combined (Some 0) (Some lambda_).

Definition k_tournament_elimination
    (offspring population : loc) (lambda_ : Z) (k : Z) : M loc :=
  let! combined := list_add population offspring in
  let! combined := sorted_by_fitness combined in
  let! c0 := list_getitem combined 0 in
  let! best := new_list [c0] in
  let! winners :=
    mapM (λ _, k_tournament_selection combined k)
         (py_range 0 (lambda_ - 1)) in
  let! rest := new_list winners in
  list_add best rest.

End Elimination.

(** * Vocabulary of the statements *)

(** The fitness of an individual, where it has one. *)
Definition fitness_of (F : gmap nat Q) (r : ref) : Q := default 0%Q (F !! r).
Definition has_fitness (F : gmap nat Q) (r : ref) : Prop := is_Some (F !! r).

(** ** What a call leaves alone *)

(** [frame strict s s']: every list object of [s] is still there in [s'],
    unchanged; the fitness of every individual, the global name and the
    random stream are the same; when [strict], so are the shared fitnesses.
    New list objects may have come, and random draws may have been made. *)
Record frame (strict : bool) (s s' : state) : Prop := mkFrame {
  frame_lists : st_lists s `prefix_of` st_lists s';
  frame_fitness : st_fitness s' = st_fitness s;
  frame_global : st_fitness_sharing s' = st_fitness_sharing s;
  frame_random : st_random s' = st_random s;
  frame_shared : strict = true → st_shared_fitness s' = st_shared_fitness s
}.

(** [preserves strict s0 φ m]: started in a state that frames [s0], the
    computation [m] ends in such a state, whether it returns or raises, and
    a returned value satisfies [φ]. *)
Definition preserves {A} (strict : bool) (s0 : state) (φ : A → Prop)
    (m : M A) : Prop :=
  ∀ s, frame strict s0 s →
    match m s with
    | Ok a s' => frame strict s0 s' ∧ φ a
    | Raise _ s' => frame strict s0 s'
    end.

(** A list object that did not exist in [s0]. *)
Definition fresh_in (s0 : state) (l : loc) : Prop :=
  (length (st_lists s0) ≤ l)%nat.

Definition anything {A} : A → Prop := λ _, True.

(** ** Runs that return *)

(** [returns m s Q]: started in [s], the computation [m] raises nothing and
    returns a value and a state that satisfy [Q]. *)
Definition returns {A} (m : M A) (s : state) (Q : A → state → Prop) : Prop :=
  match m s with
  | Ok a s' => Q a s'
  | Raise _ _ => False
  end.

(** [new_at s xs l s']: [s'] is [s] with one more list object, [l], that
    holds [xs]. *)
Record new_at (s : state) (xs : list nat) (l : loc) (s' : state) : Prop := {
  new_at_fresh : l = length (st_lists s);
  new_at_lookup : st_lists s' !! l = Some xs;
  new_at_frame : frame true s s';
  new_at_drawn : st_drawn s' = st_drawn s
}.

(** ** What the strategies return *)

(** The list that [replace_worst] sorts, and the one it returns. *)
Definition replace_worst_combined (P O : list nat) : list nat :=
  py_slice P None (Some (- Z.of_nat (length O))) ++ O.

Definition replace_worst_result
    (F : gmap nat Q) (P O : list nat) (lambda_ : Z) : list nat :=
  py_slice (sort_by (fitness_of F) (replace_worst_combined P O))
           (Some 0) (Some lambda_).

(** The list that [lambda_plus_mu_elimination] returns. *)
Definition lambda_plus_mu_result
    (F : gmap nat Q) (P O : list nat) (lambda_ : Z) : list nat :=
  py_slice (sort_by (fitness_of F) (P ++ O)) None (Some lambda_).

(** [drawn_from s pool k sample]: from state [s] on, [k] draws from [pool]
    give [sample]. *)
Definition drawn_from
    (s : state) (pool : list nat) (k : nat) (sample : list nat) : Prop :=
  Forall2 (λ j r, pool !! (st_random s j `mod` length pool)%nat = Some r)
          (seq (st_drawn s) k) sample.



(** [R] holds [lambda_] individuals, is sorted ascending by the fitness they
    have in [s'], and every one of them is a member of [P] or [O]. *)
Definition sorted_survivors
    (s' : state) (P O : list nat) (lambda_ : Z) (R : list nat) : Prop :=
  Z.of_nat (length R) = lambda_
  ∧ StronglySorted (key_le (fitness_of (st_fitness s'))) R
  ∧ Forall (λ x, x ∈ P ∨ x ∈ O) R.

Section SharingVocabulary.
Variable distance : ref → ref → Q.
Variable power : Q → Q → Q.

(** The shared fitness of [x] against the survivors [S]. *)
Definition shared_fitness_in
    (F : gmap nat Q) (S : list nat) (alpha sigma : Q) (x : ref) : Q :=
  shared_fitness_value distance power (fitness_of F x) x S alpha sigma.

(** [greedy_survivors F C alpha sigma n S R]: [R] is [S] after [n]
    iterations, each of which appends the member of the sorted pool [C]
    at the first index of the least value that the model of
    [calc_shared_fitnesses] gives against the survivors chosen so far. *)
Inductive greedy_survivors (F : gmap nat Q) (C : list nat) (alpha sigma : Q)
  : nat → list nat → list nat → Prop :=
| greedy_done S : greedy_survivors F C alpha sigma 0 S S
| greedy_more n S i x R :
    C !! i = Some x →
    (∀ j y, C !! j = Some y →
       (shared_fitness_in F S alpha sigma x
        <= shared_fitness_in F S alpha sigma y)%Q) →
    (∀ j y, (j < i)%nat → C !! j = Some y →
       (shared_fitness_in F S alpha sigma x
        < shared_fitness_in F S alpha sigma y)%Q) →
    greedy_survivors F C alpha sigma n (S ++ [x]) R →
    greedy_survivors F C alpha sigma (Datatypes.S n) S R.

End SharingVocabulary.

(** ** Runs that raise *)

(** [raises m s e]: started in [s], the computation [m] raises [e]. *)
Definition raises {A} (m : M A) (s : state) (e : exn) : Prop :=
  ∃ s', m s = Raise e s'.

(** ** The shared fitnesses that [lambda_plus_mu_elimination] writes *)

Section SharingLoopVocabulary.
Variable distance : ref → ref → Q.
Variable power : Q → Q → Q.

(** The shared fitnesses [m] after the loop of lines 64-66 has gone over
    the indices [idxs] of the survivors [R]: the survivor at each index
    gets its shared fitness against [R[:idx] + R[idx+1:]]. *)
Definition shared_fitness_after
    (F : gmap nat Q) (R : list nat) (alpha sigma : Q)
    (idxs : list Z) (m : gmap nat Q) : gmap nat Q :=
  foldl (λ m idx,
           match py_index R idx with
           | Some x =>
               <[x := shared_fitness_value distance power (fitness_of F x) x
                        (py_slice R None (Some idx)
                         ++ py_slice R (Some (idx + 1)) None)
                        alpha sigma]> m
           | None => m
           end) m idxs.
End SharingLoopVocabulary.

(** * Example inputs *)

(** Individuals [0..4] with fitness 5, 3, 8, 1 and 9; the population is
    list object [0], the offspring list object [1]. *)
Definition example_fitness : gmap nat Q :=
  list_to_map [(0%nat, 5%Q); (1%nat, 3%Q); (2%nat, 8%Q); (3%nat, 1%Q);
               (4%nat, 9%Q)].

Definition example_state
    (population offspring : list nat) (fitness_sharing : option bool)
    (random : nat → nat) : state :=
  mkState example_fitness ∅ [population; offspring] fitness_sharing random 0.

(** Distinct individuals are far apart (ten niche radii for [sigma = 1]). *)
Definition example_distance (a b : ref) : Q :=
  if decide (a = b) then 0%Q else 10%Q.

(** The power with an integral exponent. *)
Definition example_power (x alpha : Q) : Q := Qpower x (Qfloor alpha).

(** * Facts about the list operations *)

Section PyListFacts.
Context {A : Type}.
Implicit Types (l : list A) (key : A → Q).

Lemma py_slice_sublist l start stop : py_slice l start stop `sublist_of` l.
Proof.
  unfold py_slice. etrans; [apply sublist_take | apply sublist_drop].
Qed.

Lemma elem_of_py_slice l start stop x : x ∈ py_slice l start stop → x ∈ l.
Proof. intros H. eapply elem_of_sublist; [done | apply py_slice_sublist]. Qed.

Lemma py_slice_prefix l (n : Z) :
  py_slice l None (Some n) = take (slice_bound (length l) n) l.
Proof. unfold py_slice. simpl. by rewrite Nat.sub_0_r, drop_0. Qed.

Lemma py_slice_from_0 l (n : Z) :
  py_slice l (Some 0) (Some n) = take (slice_bound (length l) n) l.
Proof. unfold py_slice. simpl. by rewrite Nat.sub_0_r, drop_0. Qed.

Lemma length_py_slice_prefix l (n : Z) :
  0 ≤ n ≤ Z.of_nat (length l) →
  Z.of_nat (length (py_slice l None (Some n))) = n.
Proof.
  intros H. rewrite py_slice_prefix, length_take. unfold slice_bound.
  destruct (n <? 0) eqn:E; lia.
Qed.

Lemma insert_by_perm key x l : insert_by key x l ≡ₚ x :: l.
Proof.
  induction l as [|y l IH]; simpl; [done|].
  destruct (Qle_bool (key x) (key y)); [done|].
  rewrite IH. apply Permutation_swap.
Qed.

Lemma sort_by_perm key l : sort_by key l ≡ₚ l.
Proof.
  induction l as [|x l IH]; simpl; [done|].
  unfold sort_by in IH. by rewrite insert_by_perm, IH.
Qed.

Lemma length_sort_by key l : length (sort_by key l) = length l.
Proof. by rewrite sort_by_perm. Qed.

Lemma elem_of_sort_by key l x : x ∈ sort_by key l ↔ x ∈ l.
Proof. by rewrite sort_by_perm. Qed.

(** Sorting is stable: the elements of one key keep the order they had. *)
Lemma insert_by_stable key (q : Q) x l :
  filter (λ a, Qeq_bool (key a) q = true) (insert_by key x l)
  = filter (λ a, Qeq_bool (key a) q = true) (x :: l).
Proof.
  induction l as [|y l IH]; simpl; [done|].
  destruct (Qle_bool (key x) (key y)) eqn:E; [done|].
  rewrite (filter_cons _ y), IH, !filter_cons.
  destruct (decide (Qeq_bool (key x) q = true)) as [Hx|Hx]; [|done].
  destruct (decide (Qeq_bool (key y) q = true)) as [Hy|Hy]; [|done].
  apply Qeq_bool_iff in Hx, Hy.
  assert (Qle_bool (key x) (key y) = true); [|congruence].
  apply Qle_bool_iff. rewrite Hx, Hy. apply Qle_refl.
Qed.

Lemma sort_by_stable key (q : Q) l :
  filter (λ a, Qeq_bool (key a) q = true) (sort_by key l)
  = filter (λ a, Qeq_bool (key a) q = true) l.
Proof.
  unfold sort_by. induction l as [|x l IH]; simpl; [done|].
  by rewrite insert_by_stable, !filter_cons, IH.
Qed.
Global Instance key_le_trans key : Transitive (key_le key).
Proof. intros a b c. unfold key_le. apply Qle_trans. Qed.

Lemma insert_by_sorted key x l :
  Sorted (key_le key) l → Sorted (key_le key) (insert_by key x l).
Proof.
  induction 1 as [|y l Hl IH Hy]; simpl.
  - repeat constructor.
  - destruct (Qle_bool (key x) (key y)) eqn:E.
    + apply Qle_bool_iff in E. by repeat constructor.
    + assert (key_le key y x) as Hyx.
      { unfold key_le. apply Qlt_le_weak, Qnot_le_lt.
        intros H%Qle_bool_iff. congruence. }
      constructor; [done|].
      destruct Hy as [|z l Hz]; simpl; [by constructor|].
      destruct (Qle_bool (key x) (key z)); by constructor.
Qed.

Lemma sort_by_sorted key l : StronglySorted (key_le key) (sort_by key l).
Proof.
  apply Sorted_StronglySorted; [apply _|].
  induction l as [|x l IH]; simpl; [constructor|].
  by apply insert_by_sorted.
Qed.

Lemma StronglySorted_take (R : relation A) n l :
  StronglySorted R l → StronglySorted R (take n l).
Proof.
  intros H. rewrite <-(take_drop n l) in H.
  by apply StronglySorted_app_1_l in H.
Qed.

(** The head of a sorted list has the least key. *)
Lemma sort_by_head_least key l x y :
  head (sort_by key l) = Some x → y ∈ l → (key x <= key y)%Q.
Proof.
  intros Hx Hy%(elem_of_sort_by key). pose proof (sort_by_sorted key l) as Hs.
  destruct (sort_by key l) as [|x' l']; simplify_eq/=.
  apply StronglySorted_cons in Hs as [Hs _]. rewrite Forall_forall in Hs.
  apply elem_of_cons in Hy as [->|Hy]; [apply Qle_refl | by apply Hs].
Qed.

(** Sorting decorated elements by their key and dropping the keys is
    sorting by the function that computed the keys. *)
Lemma zip_decorate key l : zip (map key l) l = map (λ x, (key x, x)) l.
Proof. induction l; simpl; [done | by f_equal]. Qed.

Lemma insert_by_decorated key x l :
  insert_by fst (key x, x) (map (λ x, (key x, x)) l)
  = map (λ x, (key x, x)) (insert_by key x l).
Proof.
  induction l as [|y l IH]; simpl; [done|].
  destruct (Qle_bool (key x) (key y)); simpl; [done | by rewrite IH].
Qed.

Lemma sort_by_decorated key l :
  map snd (sort_by fst (zip (map key l) l)) = sort_by key l.
Proof.
  rewrite zip_decorate.
  assert (sort_by fst (map (λ x, (key x, x)) l)
          = map (λ x, (key x, x)) (sort_by key l)) as ->.
  { unfold sort_by. induction l as [|x l IH]; simpl; [done|].
    by rewrite IH, insert_by_decorated. }
  rewrite map_map. simpl. apply map_id.
Qed.
End PyListFacts.

(** The first minimum of a list of numbers. *)
Lemma argmin_from_spec best besti i l :
  let k := argmin_from best besti i l in
  (k = besti ∧ Forall (λ x, best <= x)%Q l)
  ∨ (∃ j x, k = (i + j)%nat ∧ l !! j = Some x ∧ (x < best)%Q
       ∧ Forall (λ y, x <= y)%Q l
       ∧ ∀ j' y, (j' < j)%nat → l !! j' = Some y → (x < y)%Q).
Proof.
  revert best besti i. induction l as [|x l IH]; intros best besti i; simpl.
  { left. by split. }
  destruct (Qle_bool best x) eqn:E.
  - apply Qle_bool_iff in E.
    destruct (IH best besti (S i))
      as [[-> H]|(j & y & -> & Hj & Hy & Hall & Hlt)].
    + left. split; [done | by constructor].
    + right. exists (S j), y. split_and!; simpl; try done; try lia.
      * constructor; [lra | done].
      * intros [|j'] z Hj' Hz; simplify_eq/=; [lra|].
        eapply Hlt; [|done]. lia.
  - assert (x < best)%Q as Hx.
    { apply Qnot_le_lt. intros H%Qle_bool_iff. congruence. }
    right. destruct (IH x i (S i))
      as [[-> H]|(j & y & -> & Hj & Hy & Hall & Hlt)].
    + exists 0%nat, x. split_and!; simpl; try done; try lia.
      constructor; [lra | done].
    + exists (S j), y. split_and!; simpl; try done; try lia; try lra.
      * constructor; [lra | done].
      * intros [|j'] z Hj' Hz; simplify_eq/=; [lra|].
        eapply Hlt; [|done]. lia.
Qed.

(** [argmin] returns the first index that holds the least value. *)
Lemma argmin_spec l i :
  argmin l = Some i →
  ∃ x, l !! i = Some x
       ∧ (∀ j y, l !! j = Some y → (x <= y)%Q)
       ∧ (∀ j y, (j < i)%nat → l !! j = Some y → (x < y)%Q).
Proof.
  destruct l as [|b l]; intros H; simplify_eq/=.
  destruct (argmin_from_spec b 0 1 l)
    as [[-> H]|(j & y & -> & Hj & Hy & Hall & Hlt)].
  - exists b. split_and!; [done | | intros; lia].
    intros [|j] y Hy; simplify_eq/=; [lra|].
    rewrite Forall_forall in H. apply H. by eapply list_elem_of_lookup_2.
  - exists y. split_and!; [done | |].
    + intros [|j'] z Hz; simplify_eq/=; [lra|].
      rewrite Forall_forall in Hall. apply Hall.
      by eapply list_elem_of_lookup_2.
    + intros [|j'] z Hj' Hz; simplify_eq/=; [lra|].
      eapply Hlt; [|done]. lia.
Qed.

Lemma argmin_is_Some l : l ≠ [] → is_Some (argmin l).
Proof. destruct l; [done | by eexists]. Qed.

Lemma argmin_lt_length l i : argmin l = Some i → (i < length l)%nat.
Proof.
  intros (x & Hx & _)%argmin_spec. by eapply lookup_lt_Some.
Qed.

(** The penalizer leaves the fitness of a candidate as it is when there is
    no survivor. *)
Lemma shared_fitness_value_no_survivors distance power f c alpha sigma :
  (shared_fitness_value distance power f c [] alpha sigma == f)%Q.
Proof. unfold shared_fitness_value. simpl. ring. Qed.

(** * Facts about the store *)

(** ** What a call leaves alone *)

Global Instance frame_preorder strict : PreOrder (frame strict).
Proof.
  split.
  - by intros s.
  - intros s1 s2 s3 [H1 H2 H3 H4 H5] [H1' H2' H3' H4' H5'].
    split; [by etrans | congruence..|].
    intros ?. rewrite H5', H5; done.
Qed.

Lemma frame_lookup strict s s' l xs :
  frame strict s s' → st_lists s !! l = Some xs → st_lists s' !! l = Some xs.
Proof. intros [Hp _ _ _ _] Hl. by eapply prefix_lookup_Some. Qed.

Lemma frame_length strict s s' :
  frame strict s s' → (length (st_lists s) ≤ length (st_lists s'))%nat.
Proof. intros [Hp _ _ _ _]. by apply prefix_length. Qed.

Lemma frame_weaken strict s s' : frame true s s' → frame strict s s'.
Proof. intros []. split; auto. Qed.

Lemma frame_new_list strict s0 s xs :
  frame strict s0 s → frame strict s0 (with_lists (λ ls, ls ++ [xs]) s).
Proof. intros []. split; simpl; auto. by apply prefix_app_r. Qed.

Lemma frame_drawn strict s0 s f :
  frame strict s0 s → frame strict s0 (with_drawn f s).
Proof. intros []. by split. Qed.

Lemma frame_shared_fitness s0 s f :
  frame false s0 s → frame false s0 (with_shared_fitness f s).
Proof. intros []. by split. Qed.

(** Changing a list object that came after [s0] does not disturb the list
    objects of [s0]. *)
Lemma frame_insert strict s0 s a ys :
  (length (st_lists s0) ≤ a)%nat →
  frame strict s0 s → frame strict s0 (with_lists (λ ls, <[a := ys]> ls) s).
Proof.
  intros Ha [[k Hk] ? ? ? ?]. split; simpl; auto.
  rewrite Hk, insert_app_r_alt by done. by apply prefix_app_r.
Qed.

Section Preserves.
Context (strict : bool) (s0 : state).

Lemma preserves_ret {A} (φ : A → Prop) a :
  φ a → preserves strict s0 φ (ret a).
Proof. by intros Ha s Hs. Qed.

Lemma preserves_raise {A} (φ : A → Prop) e : preserves strict s0 φ (raise e).
Proof. by intros s Hs. Qed.

Lemma preserves_bind {A B} (φ : A → Prop) (ψ : B → Prop) m k :
  preserves strict s0 φ m →
  (∀ a, φ a → preserves strict s0 ψ (k a)) →
  preserves strict s0 ψ (bind m k).
Proof.
  intros Hm Hk s Hs. unfold bind. specialize (Hm s Hs).
  destruct (m s) as [a s'|e s']; [|exact Hm].
  destruct Hm as [Hs' Ha]. by apply Hk.
Qed.

Lemma preserves_weaken {A} (φ ψ : A → Prop) m :
  (∀ a, φ a → ψ a) → preserves strict s0 φ m → preserves strict s0 ψ m.
Proof.
  intros Himp Hm s Hs. specialize (Hm s Hs).
  destruct (m s); [|done]. split; [apply Hm | apply Himp, Hm].
Qed.

Lemma preserves_mapM {A B} (f : A → M B) l :
  (∀ x, preserves strict s0 anything (f x)) →
  preserves strict s0 anything (mapM f l).
Proof.
  intros Hf. induction l as [|x l IH]; simpl.
  - by apply preserves_ret.
  - eapply preserves_bind; [apply Hf|]. intros y _.
    eapply preserves_bind; [apply IH|]. intros ys _.
    by apply preserves_ret.
Qed.

Lemma preserves_for_each {A} (body : A → M unit) l :
  (∀ x, preserves strict s0 anything (body x)) →
  preserves strict s0 anything (for_each l body).
Proof.
  intros Hf. induction l as [|x l IH]; simpl.
  - by apply preserves_ret.
  - eapply preserves_bind; [apply Hf|]. intros _ _. apply IH.
Qed.

Lemma preserves_getattr_fitness r :
  preserves strict s0 anything (getattr_fitness r).
Proof.
  intros s Hs. unfold getattr_fitness. by destruct (st_fitness s !! r).
Qed.

Lemma preserves_read_list l : preserves strict s0 anything (read_list l).
Proof. intros s Hs. unfold read_list. by destruct (st_lists s !! l). Qed.

Lemma preserves_new_list xs : preserves strict s0 (fresh_in s0) (new_list xs).
Proof.
  intros s Hs. simpl. split; [by apply frame_new_list|].
  by eapply frame_length.
Qed.

Lemma preserves_global_fitness_sharing :
  preserves strict s0 anything global_fitness_sharing.
Proof.
  intros s Hs. unfold global_fitness_sharing.
  by destruct (st_fitness_sharing s).
Qed.

Lemma preserves_list_append a x :
  fresh_in s0 a → preserves strict s0 anything (list_append a x).
Proof.
  intros Ha s Hs. unfold list_append. destruct (st_lists s !! a); [|done].
  split; [by apply frame_insert | done].
Qed.

Lemma preserves_random_choice xs :
  preserves strict s0 anything (random_choice xs).
Proof.
  intros s Hs. unfold random_choice. destruct (xs !! _); [|done].
  split; [by apply frame_drawn | done].
Qed.
End Preserves.

Lemma preserves_setattr_shared_fitness s0 r q :
  preserves false s0 anything (setattr_shared_fitness r q).
Proof. intros s Hs. simpl. split; [by apply frame_shared_fitness | done]. Qed.

Create HintDb preserves.
#[export] Hint Resolve preserves_ret preserves_raise preserves_getattr_fitness
  preserves_read_list preserves_new_list preserves_global_fitness_sharing
  preserves_list_append preserves_random_choice
  preserves_setattr_shared_fitness : preserves.
#[export] Hint Extern 1 (anything _) => exact I : preserves.

(** One step through a computation: split a [bind], case on a [match] or
    an [if], or close the goal with a known fact. *)
Ltac preserves_step :=
  cbv beta zeta;
  lazymatch goal with
  | |- preserves _ _ _ (bind _ _) => eapply preserves_bind; [|intros ? ?]
  | |- preserves _ _ _ (mapM _ _) => apply preserves_mapM; intros ?
  | |- preserves _ _ _ (for_each _ _) => apply preserves_for_each; intros ?
  | |- preserves _ _ _ (match ?x with _ => _ end) => destruct x
  | |- preserves _ _ anything _ =>
      first [ solve [eauto with preserves]
            | eapply preserves_weaken; [|solve [eauto with preserves]];
              intros ? _; exact I ]
  | |- preserves _ _ _ _ => solve [eauto with preserves]
  end.

Ltac preserves_auto unf := unfold unf; repeat preserves_step.

Section PreservesOps.
Context (strict : bool) (s0 : state).

Lemma preserves_list_len a : preserves strict s0 anything (list_len a).
Proof. preserves_auto list_len. Qed.

Lemma preserves_list_add a b : preserves strict s0 (fresh_in s0) (list_add a b).
Proof. preserves_auto list_add. Qed.

Lemma preserves_list_slice a start stop :
  preserves strict s0 (fresh_in s0) (list_slice a start stop).
Proof. preserves_auto list_slice. Qed.

Lemma preserves_list_getitem a i :
  preserves strict s0 anything (list_getitem a i).
Proof. preserves_auto list_getitem. Qed.

Lemma preserves_sorted_by_fitness a :
  preserves strict s0 (fresh_in s0) (sorted_by_fitness a).
Proof. preserves_auto sorted_by_fitness. Qed.
End PreservesOps.

#[export] Hint Resolve preserves_list_len preserves_list_add
  preserves_list_slice preserves_list_getitem preserves_sorted_by_fitness
  : preserves.

Section PreservesStrategies.
Context (distance : nat → nat → Q) (power : Q → Q → Q).

Section AnyFrame.
Context (strict : bool) (s0 : state).

Lemma preserves_calc_shared_fitnesses population survivors alpha sigma :
  preserves strict s0 anything
    (calc_shared_fitnesses distance power population survivors alpha sigma).
Proof. preserves_auto calc_shared_fitnesses. Qed.

Lemma preserves_min_by_fitness sample :
  preserves strict s0 anything (min_by_fitness sample).
Proof. preserves_auto min_by_fitness. Qed.

Hint Resolve preserves_calc_shared_fitnesses preserves_min_by_fitness
  : preserves.

Lemma preserves_k_tournament_selection population k :
  preserves strict s0 anything (k_tournament_selection population k).
Proof. preserves_auto k_tournament_selection. Qed.

Lemma preserves_fitness_sharing_step combined survivors alpha sigma :
  fresh_in s0 survivors →
  preserves strict s0 anything
    (fitness_sharing_step distance power combined survivors alpha sigma).
Proof. intros Hv. preserves_auto fitness_sharing_step. Qed.

Hint Resolve preserves_k_tournament_selection
  preserves_fitness_sharing_step : preserves.

Lemma preserves_fitness_sharing_elimination
    offspring population lambda_ alpha sigma :
  preserves strict s0 anything
    (fitness_sharing_elimination distance power
       offspring population lambda_ alpha sigma).
Proof. preserves_auto fitness_sharing_elimination. Qed.

Lemma preserves_replace_worst offspring population lambda_ :
  preserves strict s0 anything (replace_worst offspring population lambda_).
Proof. preserves_auto replace_worst. Qed.

Lemma preserves_k_tournament_elimination offspring population lambda_ k :
  preserves strict s0 anything
    (k_tournament_elimination offspring population lambda_ k).
Proof. preserves_auto k_tournament_elimination. Qed.
End AnyFrame.

Section SharedFitnessChanges.
Context (s0 : state).

Lemma preserves_calc_shared_fitness self others alpha sigma :
  preserves false s0 anything
    (calc_shared_fitness distance power self others alpha sigma).
Proof. preserves_auto calc_shared_fitness. Qed.

Hint Resolve preserves_calc_shared_fitness : preserves.

Lemma preserves_shared_fitness_update combined alpha sigma idx :
  preserves false s0 anything
    (shared_fitness_update distance power combined alpha sigma idx).
Proof. preserves_auto shared_fitness_update. Qed.

Hint Resolve preserves_shared_fitness_update : preserves.

Lemma preserves_lambda_plus_mu_elimination
    offspring population lambda_ alpha sigma :
  preserves false s0 anything
    (lambda_plus_mu_elimination distance power
       offspring population lambda_ alpha sigma).
Proof. preserves_auto lambda_plus_mu_elimination. Qed.
End SharedFitnessChanges.
End PreservesStrategies.

(** ** Runs that return *)

Lemma returns_inv {A} (m : M A) s Q :
  returns m s Q → ∃ a s', m s = Ok a s' ∧ Q a s'.
Proof. unfold returns. destruct (m s); [eauto | done]. Qed.

Lemma returns_mono {A} (m : M A) s (Q Q' : A → state → Prop) :
  (∀ a s', Q a s' → Q' a s') → returns m s Q → returns m s Q'.
Proof. unfold returns. destruct (m s); [auto | done]. Qed.

Lemma returns_ret {A} (a : A) s Q : Q a s → returns (ret a) s Q.
Proof. done. Qed.

Lemma returns_bind {A B} (m : M A) (k : A → M B) s Q :
  returns m s (λ a s', returns (k a) s' Q) → returns (bind m k) s Q.
Proof. unfold returns, bind. by destruct (m s). Qed.

Lemma returns_getattr_fitness r s q Q :
  st_fitness s !! r = Some q → Q q s → returns (getattr_fitness r) s Q.
Proof. unfold returns, getattr_fitness. by intros ->. Qed.

Lemma returns_read_list l s xs Q :
  st_lists s !! l = Some xs → Q xs s → returns (read_list l) s Q.
Proof. unfold returns, read_list. by intros ->. Qed.

Lemma returns_new_list xs s Q :
  (∀ l s', new_at s xs l s' → Q l s') → returns (new_list xs) s Q.
Proof.
  intros HQ. apply HQ. split; simpl; [done | | | done].
  - by rewrite lookup_app_r, Nat.sub_diag.
  - by apply frame_new_list.
Qed.

Lemma returns_list_len a s xs Q :
  st_lists s !! a = Some xs →
  Q (Z.of_nat (length xs)) s → returns (list_len a) s Q.
Proof.
  intros Ha HQ. apply returns_bind. eapply returns_read_list; [done|].
  by apply returns_ret.
Qed.

Lemma returns_list_add a b s xs ys Q :
  st_lists s !! a = Some xs → st_lists s !! b = Some ys →
  (∀ l s', new_at s (xs ++ ys) l s' → Q l s') → returns (list_add a b) s Q.
Proof.
  intros Ha Hb HQ. apply returns_bind. eapply returns_read_list; [done|].
  apply returns_bind. eapply returns_read_list; [done|].
  by apply returns_new_list.
Qed.

Lemma returns_list_slice a start stop s xs Q :
  st_lists s !! a = Some xs →
  (∀ l s', new_at s (py_slice xs start stop) l s' → Q l s') →
  returns (list_slice a start stop) s Q.
Proof.
  intros Ha HQ. apply returns_bind. eapply returns_read_list; [done|].
  by apply returns_new_list.
Qed.

Lemma returns_list_getitem a i s xs r Q :
  st_lists s !! a = Some xs → py_index xs i = Some r →
  Q r s → returns (list_getitem a i) s Q.
Proof.
  intros Ha Hi HQ. apply returns_bind. eapply returns_read_list; [done|].
  rewrite Hi. by apply returns_ret.
Qed.

Lemma returns_list_append a x s xs Q :
  st_lists s !! a = Some xs →
  Q tt (with_lists (λ ls, <[a := xs ++ [x]]> ls) s) →
  returns (list_append a x) s Q.
Proof. unfold returns, list_append. by intros ->. Qed.

(** A [mapM] whose function reads the state without changing it. *)
Lemma returns_mapM_pure {A B} (f : A → M B) (g : A → B) l s Q :
  Forall (λ x, f x s = Ok (g x) s) l →
  Q (map g l) s → returns (mapM f l) s Q.
Proof.
  intros Hf HQ. unfold returns.
  assert (mapM f l s = Ok (map g l) s) as ->; [|done].
  clear HQ. induction Hf as [|x l Hx Hl IH]; simpl; [done|].
  unfold bind. rewrite Hx. unfold bind in IH. by rewrite IH.
Qed.

Lemma getattr_fitness_run s r :
  has_fitness (st_fitness s) r →
  getattr_fitness r s = Ok (fitness_of (st_fitness s) r) s.
Proof.
  intros [q Hq]. unfold getattr_fitness, fitness_of. by rewrite Hq.
Qed.

Lemma returns_sorted_by_fitness a s xs Q :
  st_lists s !! a = Some xs →
  Forall (has_fitness (st_fitness s)) xs →
  (∀ l s', new_at s (sort_by (fitness_of (st_fitness s)) xs) l s' → Q l s') →
  returns (sorted_by_fitness a) s Q.
Proof.
  intros Ha Hxs HQ. apply returns_bind. eapply returns_read_list; [done|].
  apply returns_bind.
  apply (returns_mapM_pure _ (fitness_of (st_fitness s))).
  { eapply Forall_impl; [done|]. intros r. apply getattr_fitness_run. }
  rewrite sort_by_decorated. by apply returns_new_list.
Qed.

Lemma returns_global_fitness_sharing s b Q :
  st_fitness_sharing s = Some b → Q b s → returns global_fitness_sharing s Q.
Proof. unfold returns, global_fitness_sharing. by intros ->. Qed.

(** What a new list object leaves as it was. *)
Lemma new_at_old s xs l s' l' ys :
  new_at s xs l s' → st_lists s !! l' = Some ys → st_lists s' !! l' = Some ys.
Proof. intros [_ _ F _]. by apply (frame_lookup true). Qed.

Lemma new_at_fitness s xs l s' :
  new_at s xs l s' → st_fitness s' = st_fitness s.
Proof. intros [_ _ F _]. apply F. Qed.

Lemma py_index_0 {A} (l : list A) : py_index l 0 = head l.
Proof. unfold py_index. simpl. by destruct l. Qed.

Lemma py_index_nat {A} (l : list A) (i : nat) :
  py_index l (Z.of_nat i) = l !! i.
Proof.
  unfold py_index. rewrite (proj2 (Z.ltb_ge _ _)) by lia.
  rewrite (proj2 (Z.leb_le _ _)) by lia. by rewrite Nat2Z.id.
Qed.

(** * The strategies on valid input *)

(** ** [replace_worst] *)

(** [population[:-len(offspring)]]: nothing when there are no offspring
    (the bound is then [-0 = 0]) or more offspring than parents; otherwise
    the population without its last [len(offspring)] members. *)
Lemma py_slice_drop_last {A} (P : list A) (n : nat) :
  py_slice P None (Some (- Z.of_nat n))
  = if decide (n = 0%nat) then [] else take (length P - n) P.
Proof.
  rewrite py_slice_prefix. unfold slice_bound.
  destruct (decide (n = 0%nat)) as [->|Hn]; [done|].
  rewrite (proj2 (Z.ltb_lt _ _)) by lia. f_equal. lia.
Qed.

Lemma replace_worst_returns s offspring population lambda_ O P :
  st_lists s !! offspring = Some O →
  st_lists s !! population = Some P →
  Forall (has_fitness (st_fitness s)) (replace_worst_combined P O) →
  returns (replace_worst offspring population lambda_) s (λ l s',
    st_lists s' !! l = Some (replace_worst_result (st_fitness s) P O lambda_)
    ∧ frame true s s').
Proof.
  intros HO HP HF. unfold replace_worst.
  apply returns_bind. eapply returns_list_len; [done|].
  apply returns_bind. eapply returns_list_slice; [done|].
  intros kept s1 H1.
  apply returns_bind. eapply returns_list_add;
    [apply H1 | by eapply new_at_old |].
  intros combined s2 H2.
  apply returns_bind. eapply returns_sorted_by_fitness; [apply H2 | |].
  { by rewrite (new_at_fitness _ _ _ _ H2), (new_at_fitness _ _ _ _ H1). }
  intros new_combined s3 H3.
  eapply returns_list_slice; [apply H3|].
  intros l s4 H4. split.
  - rewrite (new_at_lookup _ _ _ _ H4).
    by rewrite (new_at_fitness _ _ _ _ H2), (new_at_fitness _ _ _ _ H1).
  - etrans; [apply H1|]. etrans; [apply H2|]. etrans; [apply H3 | apply H4].
Qed.

Lemma replace_worst_result_sorted F P O lambda_ :
  StronglySorted (key_le (fitness_of F)) (replace_worst_result F P O lambda_).
Proof.
  unfold replace_worst_result. rewrite py_slice_from_0.
  apply StronglySorted_take, sort_by_sorted.
Qed.

Lemma replace_worst_result_elem_of F P O lambda_ x :
  x ∈ replace_worst_result F P O lambda_ → x ∈ P ∨ x ∈ O.
Proof.
  unfold replace_worst_result, replace_worst_combined.
  intros H%elem_of_py_slice%elem_of_sort_by%elem_of_app.
  destruct H as [H%elem_of_py_slice|H]; auto.
Qed.

Lemma replace_worst_result_length F P O lambda_ :
  0 ≤ lambda_ ≤ Z.of_nat (length (replace_worst_combined P O)) →
  Z.of_nat (length (replace_worst_result F P O lambda_)) = lambda_.
Proof.
  intros H. unfold replace_worst_result.
  rewrite py_slice_from_0, length_take, length_sort_by. unfold slice_bound.
  rewrite (proj2 (Z.ltb_ge _ _)) by lia. lia.
Qed.

(** ** [lambda_plus_mu_elimination] *)

Lemma py_range_bounds lo hi : Forall (λ i, lo ≤ i < hi) (py_range lo hi).
Proof.
  unfold py_range. apply Forall_forall. intros i Hi.
  apply list_elem_of_fmap in Hi as (j & -> & Hj).
  apply elem_of_seq in Hj. lia.
Qed.

Lemma length_py_range lo hi : length (py_range lo hi) = Z.to_nat (hi - lo).
Proof. unfold py_range. by rewrite length_map, length_seq. Qed.

Lemma py_index_in_range {A} (l : list A) (i : Z) :
  0 ≤ i < Z.of_nat (length l) → ∃ r, py_index l i = Some r ∧ r ∈ l.
Proof.
  intros Hi. rewrite <-(Z2Nat.id i), py_index_nat by lia.
  destruct (lookup_lt_is_Some_2 l (Z.to_nat i)) as [r Hr]; [lia|].
  exists r. split; [done|]. by eapply list_elem_of_lookup_2.
Qed.

Lemma returns_setattr_shared_fitness r q s Q :
  Q tt (with_shared_fitness (insert r q) s) →
  returns (setattr_shared_fitness r q) s Q.
Proof. done. Qed.

Section ValidRuns.
Context (distance : nat → nat → Q) (power : Q → Q → Q).

Lemma shared_fitness_update_returns s combined C alpha sigma idx :
  st_lists s !! combined = Some C →
  Forall (has_fitness (st_fitness s)) C →
  0 ≤ idx < Z.of_nat (length C) →
  returns (shared_fitness_update distance power combined alpha sigma idx) s
    (λ _ s', frame false s s').
Proof.
  intros HC HF Hidx. unfold shared_fitness_update.
  destruct (py_index_in_range C idx Hidx) as (self & Hself & Hin).
  apply returns_bind. eapply returns_list_getitem; [done..|].
  apply returns_bind. eapply returns_list_slice; [done|].
  intros before s1 H1.
  apply returns_bind. eapply returns_list_slice; [by eapply new_at_old|].
  intros after s2 H2.
  apply returns_bind. eapply returns_list_add;
    [eapply new_at_old; [apply H2 | apply H1] | apply H2 |].
  intros others s3 H3. unfold calc_shared_fitness.
  apply returns_bind. eapply returns_read_list; [apply H3|].
  assert (frame true s s3) as F3.
  { etrans; [apply H1|]. etrans; [apply H2 | apply H3]. }
  rewrite Forall_forall in HF. destruct (HF self Hin) as [q Hq].
  apply returns_bind. eapply returns_getattr_fitness.
  { rewrite (frame_fitness _ _ _ F3). exact Hq. }
  apply returns_setattr_shared_fitness.
  by apply frame_shared_fitness, frame_weaken.
Qed.

Lemma shared_fitness_loop_returns s combined C alpha sigma idxs :
  st_lists s !! combined = Some C →
  Forall (has_fitness (st_fitness s)) C →
  Forall (λ idx, 0 ≤ idx < Z.of_nat (length C)) idxs →
  returns (for_each idxs (shared_fitness_update distance power
                            combined alpha sigma)) s
    (λ _ s', frame false s s').
Proof.
  intros HC HF Hidxs. revert s HC HF.
  induction Hidxs as [|idx idxs Hidx _ IH]; intros s HC HF; simpl.
  { by apply returns_ret. }
  apply returns_bind.
  eapply returns_mono; [|by eapply shared_fitness_update_returns].
  intros [] s1 F1. simpl. eapply returns_mono; [|apply IH].
  - intros [] s2 F2. by etrans.
  - by eapply frame_lookup.
  - by rewrite (frame_fitness _ _ _ F1).
Qed.

Lemma lambda_plus_mu_elimination_returns
    s offspring population lambda_ alpha sigma O P b :
  st_lists s !! offspring = Some O →
  st_lists s !! population = Some P →
  Forall (has_fitness (st_fitness s)) (P ++ O) →
  st_fitness_sharing s = Some b →
  returns (lambda_plus_mu_elimination distance power
             offspring population lambda_ alpha sigma) s (λ l s',
    st_lists s' !! l = Some (lambda_plus_mu_result (st_fitness s) P O lambda_)
    ∧ frame false s s').
Proof.
  intros HO HP HF Hb. unfold lambda_plus_mu_elimination.
  apply returns_bind. eapply returns_list_add; [done..|].
  intros c1 s1 H1.
  apply returns_bind. eapply returns_sorted_by_fitness; [apply H1 | |].
  { by rewrite (new_at_fitness _ _ _ _ H1). }
  intros c2 s2 H2. rewrite (new_at_fitness _ _ _ _ H1) in H2.
  apply returns_bind. eapply returns_list_slice; [apply H2|].
  intros c3 s3 H3.
  fold (lambda_plus_mu_result (st_fitness s) P O lambda_) in H3.
  assert (frame true s s3) as F3.
  { etrans; [apply H1|]. etrans; [apply H2 | apply H3]. }
  apply returns_bind. eapply returns_global_fitness_sharing.
  { by rewrite (frame_global _ _ _ F3). }
  apply returns_bind. destruct b.
  - apply returns_bind. eapply returns_list_len; [apply H3|].
    eapply returns_mono; [|eapply shared_fitness_loop_returns].
    + intros [] s4 F4. simpl. apply returns_ret. split.
      * eapply frame_lookup; [done | apply H3].
      * etrans; [by apply frame_weaken | done].
    + apply H3.
    + rewrite (frame_fitness _ _ _ F3). apply Forall_forall.
      intros x Hx%elem_of_py_slice%elem_of_sort_by.
      by apply (proj1 (Forall_forall _ _) HF).
    + eapply Forall_impl; [apply py_range_bounds|]. simpl. lia.
  - apply returns_ret, returns_ret. split; [apply H3 | by apply frame_weaken].
Qed.

Lemma lambda_plus_mu_result_sorted F P O lambda_ :
  StronglySorted (key_le (fitness_of F)) (lambda_plus_mu_result F P O lambda_).
Proof.
  unfold lambda_plus_mu_result. rewrite py_slice_prefix.
  apply StronglySorted_take, sort_by_sorted.
Qed.

Lemma lambda_plus_mu_result_elem_of F P O lambda_ x :
  x ∈ lambda_plus_mu_result F P O lambda_ → x ∈ P ∨ x ∈ O.
Proof.
  unfold lambda_plus_mu_result.
  by intros H%elem_of_py_slice%elem_of_sort_by%elem_of_app.
Qed.

Lemma lambda_plus_mu_result_length F P O lambda_ :
  0 ≤ lambda_ ≤ Z.of_nat (length (P ++ O)) →
  Z.of_nat (length (lambda_plus_mu_result F P O lambda_)) = lambda_.
Proof.
  intros H. unfold lambda_plus_mu_result.
  apply length_py_slice_prefix. by rewrite length_sort_by.
Qed.

(** ** [fitness_sharing_elimination] *)

Lemma calc_shared_fitnesses_returns s population survivors C S alpha sigma Q :
  st_lists s !! population = Some C →
  st_lists s !! survivors = Some S →
  Forall (has_fitness (st_fitness s)) C →
  Q (map (shared_fitness_in distance power (st_fitness s) S alpha sigma) C)
    s →
  returns (calc_shared_fitnesses distance power
             population survivors alpha sigma) s Q.
Proof.
  intros HC HS HF HQ. unfold calc_shared_fitnesses.
  apply returns_bind. eapply returns_read_list; [done|].
  apply returns_bind. eapply returns_read_list; [done|].
  apply (returns_mapM_pure _
           (shared_fitness_in distance power (st_fitness s) S alpha sigma));
    [|done].
  eapply Forall_impl; [done|]. intros r Hr. simpl.
  unfold bind. by rewrite getattr_fitness_run.
Qed.

(** One iteration: the shared fitness of every member of the sorted pool
    is computed against the current survivors, and the member at the
    first index of the least value is appended. *)
Lemma fitness_sharing_step_returns s combined survivors C S alpha sigma :
  st_lists s !! combined = Some C →
  st_lists s !! survivors = Some S →
  C ≠ [] →
  Forall (has_fitness (st_fitness s)) C →
  ∃ i x,
    argmin (map (shared_fitness_in distance power (st_fitness s) S
                   alpha sigma) C) = Some i
    ∧ C !! i = Some x
    ∧ fitness_sharing_step distance power combined survivors alpha sigma s
      = Ok tt (with_lists (λ ls, <[survivors := S ++ [x]]> ls) s).
Proof.
  intros HC HS Hne HF.
  destruct (argmin_is_Some
              (map (shared_fitness_in distance power (st_fitness s) S
                      alpha sigma) C))
    as [i Hi].
  { by destruct C. }
  pose proof (argmin_lt_length _ _ Hi) as Hlt. rewrite length_map in Hlt.
  destruct (lookup_lt_is_Some_2 C i Hlt) as [x Hx].
  exists i, x. split_and!; [done..|].
  assert (returns
            (fitness_sharing_step distance power combined survivors
               alpha sigma) s
            (λ u s', s' = with_lists (λ ls, <[survivors := S ++ [x]]> ls) s))
    as (u & s' & Hrun & ->)%returns_inv; [|by destruct u].
  unfold fitness_sharing_step.
  apply returns_bind. eapply calc_shared_fitnesses_returns; [done..|].
  unfold np_argmin. simpl. rewrite app_nil_r, Hi.
  apply returns_bind. eapply returns_list_getitem;
    [done | by rewrite py_index_nat |].
  by eapply returns_list_append.
Qed.

Lemma greedy_survivors_shape F C alpha sigma n S R :
  greedy_survivors distance power F C alpha sigma n S R →
  ∃ S', R = S ++ S' ∧ length S' = n ∧ Forall (.∈ C) S'.
Proof.
  induction 1 as [S|n S i x R Hx _ _ _ (S' & -> & Hlen & Hin)].
  - exists []. by rewrite app_nil_r.
  - exists (x :: S').
    split_and!; [by rewrite <-app_assoc | by rewrite <-Hlen |].
    constructor; [by eapply list_elem_of_lookup_2 | done].
Qed.

Lemma fitness_sharing_loop_returns
    {A} (idxs : list A) s combined survivors C S alpha sigma :
  st_lists s !! combined = Some C →
  st_lists s !! survivors = Some S →
  combined ≠ survivors →
  C ≠ [] →
  Forall (has_fitness (st_fitness s)) C →
  returns (for_each idxs (λ _, fitness_sharing_step distance power
                                 combined survivors alpha sigma)) s
    (λ _ s', ∃ R,
       st_lists s' !! survivors = Some R
       ∧ greedy_survivors distance power (st_fitness s) C alpha sigma
           (length idxs) S R).
Proof.
  intros HC HS Hcv Hne. revert s S HC HS.
  induction idxs as [|idx idxs IH]; intros s S HC HS HF; simpl.
  { apply returns_ret. exists S. split; [done | constructor]. }
  destruct (fitness_sharing_step_returns s combined survivors C S
              alpha sigma) as (i & x & Hi & Hx & Hrun); [done..|].
  apply argmin_spec in Hi as (q & Hq & Hle & Hlt).
  rewrite list_lookup_fmap, Hx in Hq. simplify_eq/=.
  apply returns_bind. unfold returns at 1. rewrite Hrun.
  eapply returns_mono; [|apply (IH _ (S ++ [x]))]; simpl.
  - intros _ s' (R & HR & Hgreedy). exists R. split; [done|].
    eapply greedy_more; [done | | | done].
    + intros j y Hy. apply (Hle j). by rewrite list_lookup_fmap, Hy.
    + intros j y Hj Hy. apply (Hlt j); [done|].
      by rewrite list_lookup_fmap, Hy.
  - by rewrite list_lookup_insert_ne.
  - apply list_lookup_insert_eq. by eapply lookup_lt_Some.
  - done.
Qed.

Lemma fitness_sharing_elimination_returns
    s offspring population lambda_ alpha sigma O P :
  st_lists s !! offspring = Some O →
  st_lists s !! population = Some P →
  Forall (has_fitness (st_fitness s)) (P ++ O) →
  P ++ O ≠ [] →
  returns (fitness_sharing_elimination distance power
             offspring population lambda_ alpha sigma) s (λ l s',
    ∃ c0 R,
      st_lists s' !! l = Some R
      ∧ head (sort_by (fitness_of (st_fitness s)) (P ++ O)) = Some c0
      ∧ greedy_survivors distance power (st_fitness s)
          (sort_by (fitness_of (st_fitness s)) (P ++ O)) alpha sigma
          (Z.to_nat lambda_) [c0] R).
Proof.
  intros HO HP HF Hne. unfold fitness_sharing_elimination.
  apply returns_bind. eapply returns_list_add; [done..|].
  intros c1 s1 H1.
  apply returns_bind. eapply returns_sorted_by_fitness; [apply H1 | |].
  { by rewrite (new_at_fitness _ _ _ _ H1). }
  intros c2 s2 H2. rewrite (new_at_fitness _ _ _ _ H1) in H2.
  destruct (sort_by (fitness_of (st_fitness s)) (P ++ O))
    as [|c0 C'] eqn:EC.
  { destruct Hne. apply Permutation_nil_r.
    by rewrite <-EC, sort_by_perm. }
  apply returns_bind. eapply returns_list_getitem;
    [apply H2 | by rewrite py_index_0 |].
  apply returns_bind. apply returns_new_list. intros v s3 H3.
  assert (st_fitness s3 = st_fitness s) as HF3.
  { by rewrite (new_at_fitness _ _ _ _ H3), (new_at_fitness _ _ _ _ H2),
      (new_at_fitness _ _ _ _ H1). }
  apply returns_bind.
  eapply returns_mono;
    [|eapply (fitness_sharing_loop_returns _ s3 c2 v (c0 :: C') [c0])].
  - intros _ s4 (R & HR & Hgreedy). apply returns_ret.
    exists c0, R. split_and!; [done | done |].
    by rewrite length_py_range, Z.sub_0_r, HF3 in Hgreedy.
  - eapply new_at_old; [apply H3 | apply H2].
  - apply H3.
  - pose proof (lookup_lt_Some _ _ _ (new_at_lookup _ _ _ _ H2)).
    rewrite (new_at_fresh _ _ _ _ H3). lia.
  - done.
  - rewrite HF3. apply Forall_forall. intros x Hx. rewrite Forall_forall in HF.
    apply HF. rewrite <-(elem_of_sort_by (fitness_of (st_fitness s))).
    by rewrite EC.
Qed.
End ValidRuns.

(** ** [k_tournament_elimination] *)

Lemma drawn_from_elem_of s pool k sample :
  drawn_from s pool k sample → Forall (.∈ pool) sample.
Proof.
  unfold drawn_from. generalize (seq (st_drawn s) k).
  induction 1; constructor; [by eapply list_elem_of_lookup_2 | done].
Qed.

Lemma drawn_from_length s pool k sample :
  drawn_from s pool k sample → length sample = k.
Proof. intros H%Forall2_length. by rewrite length_seq in H. Qed.

Lemma random_choice_returns s pool Q :
  pool ≠ [] →
  (∀ r, pool !! (st_random s (st_drawn s) `mod` length pool)%nat = Some r →
        Q r (with_drawn S s)) →
  returns (random_choice pool) s Q.
Proof.
  intros Hne HQ. unfold returns, random_choice.
  destruct (lookup_lt_is_Some_2 pool
              (st_random s (st_drawn s) `mod` length pool)%nat) as [r Hr].
  { apply Nat.mod_upper_bound. by destruct pool. }
  rewrite Hr. by apply HQ.
Qed.

Lemma sample_returns {A} (idxs : list A) s pool Q :
  pool ≠ [] →
  (∀ sample s',
     drawn_from s pool (length idxs) sample →
     frame true s s' →
     st_drawn s' = (st_drawn s + length idxs)%nat →
     Q sample s') →
  returns (mapM (λ _, random_choice pool) idxs) s Q.
Proof.
  intros Hne. revert s Q.
  induction idxs as [|idx idxs IH]; intros s Q HQ; simpl.
  { apply returns_ret, HQ; simpl; [by constructor | done | lia]. }
  apply returns_bind, random_choice_returns; [done|]. intros r Hr.
  apply returns_bind, IH. intros sample s' Hsample F Hpos.
  apply returns_ret. simpl in *. apply HQ.
  - unfold drawn_from in *. simpl in *. by constructor.
  - etrans; [|done]. by apply frame_drawn.
  - lia.
Qed.

Lemma min_by_fitness_returns s sample Q :
  sample ≠ [] →
  Forall (has_fitness (st_fitness s)) sample →
  (∀ i w, argmin (map (fitness_of (st_fitness s)) sample) = Some i →
          sample !! i = Some w → Q w s) →
  returns (min_by_fitness sample) s Q.
Proof.
  intros Hne HF HQ. unfold min_by_fitness.
  apply returns_bind.
  apply (returns_mapM_pure _ (fitness_of (st_fitness s))).
  { eapply Forall_impl; [done|]. intros r. apply getattr_fitness_run. }
  destruct (argmin_is_Some (map (fitness_of (st_fitness s)) sample))
    as [i Hi].
  { by destruct sample. }
  pose proof (argmin_lt_length _ _ Hi) as Hlt. rewrite length_map in Hlt.
  destruct (lookup_lt_is_Some_2 sample i Hlt) as [w Hw].
  rewrite Hi, Hw. apply returns_ret. by eapply HQ.
Qed.

(** One tournament. *)
Lemma k_tournament_selection_returns s population C k Q :
  st_lists s !! population = Some C →
  C ≠ [] →
  Forall (has_fitness (st_fitness s)) C →
  1 ≤ k →
  (∀ sample i w s',
     drawn_from s C (Z.to_nat k) sample →
     argmin (map (fitness_of (st_fitness s)) sample) = Some i →
     sample !! i = Some w →
     frame true s s' →
     Q w s') →
  returns (k_tournament_selection population k) s Q.
Proof.
  intros HC Hne HF Hk HQ. unfold k_tournament_selection.
  apply returns_bind. eapply returns_read_list; [done|].
  apply returns_bind, sample_returns; [done|].
  intros sample s' Hsample F _.
  rewrite length_py_range, Z.sub_0_r in Hsample.
  pose proof (drawn_from_elem_of _ _ _ _ Hsample) as Hin.
  apply min_by_fitness_returns.
  - apply drawn_from_length in Hsample. destruct sample; simpl in *; [lia|done].
  - rewrite (frame_fitness _ _ _ F). rewrite Forall_forall in HF.
    eapply Forall_impl; [done|]. intros r Hr. by apply HF.
  - rewrite (frame_fitness _ _ _ F). intros i w Hi Hw. by eapply HQ.
Qed.

Lemma tournaments_returns {A} (idxs : list A) s population C k Q :
  st_lists s !! population = Some C →
  C ≠ [] →
  Forall (has_fitness (st_fitness s)) C →
  1 ≤ k →
  (∀ winners s',
     length winners = length idxs → Forall (.∈ C) winners →
     frame true s s' → Q winners s') →
  returns (mapM (λ _, k_tournament_selection population k) idxs) s Q.
Proof.
  intros HC Hne HF Hk. revert s Q HC HF.
  induction idxs as [|idx idxs IH]; intros s Q HC HF HQ; simpl.
  { apply returns_ret. by apply HQ. }
  apply returns_bind. eapply k_tournament_selection_returns; [done..|].
  intros sample i w s1 Hsample _ Hw F1.
  apply returns_bind, IH.
  - by eapply frame_lookup.
  - by rewrite (frame_fitness _ _ _ F1).
  - intros winners s2 Hlen Hin F2. apply returns_ret. apply HQ.
    + simpl. by rewrite Hlen.
    + constructor; [|done].
      eapply (proj1 (Forall_forall _ _) (drawn_from_elem_of _ _ _ _ Hsample)).
      by eapply list_elem_of_lookup_2.
    + by etrans.
Qed.

Lemma k_tournament_elimination_returns s offspring population lambda_ k O P :
  st_lists s !! offspring = Some O →
  st_lists s !! population = Some P →
  Forall (has_fitness (st_fitness s)) (P ++ O) →
  P ++ O ≠ [] →
  1 ≤ k →
  returns (k_tournament_elimination offspring population lambda_ k) s
    (λ l s', ∃ c0 winners,
       st_lists s' !! l = Some (c0 :: winners)
       ∧ head (sort_by (fitness_of (st_fitness s)) (P ++ O)) = Some c0
       ∧ length winners = Z.to_nat (lambda_ - 1)
       ∧ Forall (λ x, x ∈ P ∨ x ∈ O) winners).
Proof.
  intros HO HP HF Hne Hk. unfold k_tournament_elimination.
  apply returns_bind. eapply returns_list_add; [done..|].
  intros c1 s1 H1.
  apply returns_bind. eapply returns_sorted_by_fitness; [apply H1 | |].
  { by rewrite (new_at_fitness _ _ _ _ H1). }
  intros c2 s2 H2. rewrite (new_at_fitness _ _ _ _ H1) in H2.
  destruct (sort_by (fitness_of (st_fitness s)) (P ++ O))
    as [|c0 C'] eqn:EC.
  { destruct Hne. apply Permutation_nil_r. by rewrite <-EC, sort_by_perm. }
  assert (∀ x, x ∈ c0 :: C' → x ∈ P ∨ x ∈ O) as Hsub.
  { intros x Hx. apply elem_of_app.
    rewrite <-(elem_of_sort_by (fitness_of (st_fitness s))). by rewrite EC. }
  apply returns_bind. eapply returns_list_getitem;
    [apply H2 | by rewrite py_index_0 |].
  apply returns_bind. apply returns_new_list. intros best s3 H3.
  apply returns_bind.
  eapply (tournaments_returns _ s3 c2 (c0 :: C')); [| done | | done |].
  { eapply new_at_old; [apply H3 | apply H2]. }
  { rewrite (new_at_fitness _ _ _ _ H3), (new_at_fitness _ _ _ _ H2),
      (new_at_fitness _ _ _ _ H1).
    apply Forall_forall. intros x Hx. rewrite Forall_forall in HF.
    by apply HF, elem_of_app, Hsub. }
  intros winners s4 Hlen Hin F4.
  apply returns_bind. apply returns_new_list. intros rest s5 H5.
  eapply returns_list_add; [| apply H5 |].
  { eapply new_at_old; [apply H5|]. eapply frame_lookup; [done | apply H3]. }
  intros l s6 H6. exists c0, winners. split_and!.
  - apply H6.
  - done.
  - by rewrite Hlen, length_py_range, Z.sub_0_r.
  - eapply Forall_impl; [done|]. intros x Hx. by apply Hsub.
Qed.

(** The tournaments with their draws. *)






(** * Facts that several claims use *)

Lemma preserves_final {A} strict s φ (m : M A) :
  preserves strict s φ m → frame strict s (final (m s)).
Proof.
  intros H. specialize (H s (reflexivity s)). destruct (m s); simpl; tauto.
Qed.

Lemma bind_ok {A B} (m : M A) (k : A → M B) s a s' :
  m s = Ok a s' → bind m k s = k a s'.
Proof. unfold bind. by intros ->. Qed.

Lemma bind_raises {A B} (m : M A) (k : A → M B) s :
  (∀ a s', m s = Ok a s' → ∃ e s'', k a s' = Raise e s'') →
  ∃ e s', bind m k s = Raise e s'.
Proof. unfold bind. destruct (m s); eauto. Qed.

Lemma preserves_ok {A} strict s0 φ (m : M A) s a s' :
  preserves strict s0 φ m → frame strict s0 s → m s = Ok a s' →
  frame strict s0 s'.
Proof. intros H F E. specialize (H s F). rewrite E in H. apply H. Qed.

(** * The claims *)

Section Claims.
Context (distance : nat → nat → Q) (power : Q → Q → Q).

(** C2, as the code has it: the population loses its last two members, as
    many as there are offspring, so [3] is dropped with [8] and the result
    has the fitnesses [1, 5]. *)
Theorem replace_worst_example s offspring population a b c d e :
  st_lists s !! population = Some [a; b; c] →
  st_lists s !! offspring = Some [d; e] →
  st_fitness s !! a = Some 5%Q →
  st_fitness s !! b = Some 3%Q →
  st_fitness s !! c = Some 8%Q →
  st_fitness s !! d = Some 1%Q →
  st_fitness s !! e = Some 9%Q →
  ∃ l s',
    replace_worst offspring population 2 s = Ok l s'
    ∧ st_lists s' !! l = Some [d; a]
    ∧ map (fitness_of (st_fitness s')) [d; a] = [1%Q; 5%Q].
Proof.
  intros HP HO Ha Hb Hc Hd He.
  assert (Forall (has_fitness (st_fitness s))
            (replace_worst_combined [a; b; c] [d; e])) as HF.
  { repeat constructor; by eexists. }
  destruct (returns_inv _ _ _
              (replace_worst_returns s offspring population 2 [d; e] [a; b; c]
                 HO HP HF))
    as (l & s' & Hrun & Hl & F).
  exists l, s'. split_and!; [done | |].
  - rewrite Hl. f_equal.
    unfold replace_worst_result, replace_worst_combined, sort_by, fitness_of.
    repeat (progress (simpl; rewrite ?Ha, ?Hd, ?He)). reflexivity.
  - rewrite (frame_fitness _ _ _ F). unfold fitness_of. simpl.
    by rewrite Ha, Hd.
Qed.

(** C3, as the code has it: with more offspring than parents nothing is
    raised; the slice of the population is empty, and the result is the
    slice [0:lambda_] of the offspring sorted by fitness. *)
Theorem replace_worst_more_offspring s offspring population lambda_ O P :
  st_lists s !! offspring = Some O →
  st_lists s !! population = Some P →
  (length P < length O)%nat →
  Forall (has_fitness (st_fitness s)) O →
  ∃ l s',
    replace_worst offspring population lambda_ s = Ok l s'
    ∧ st_lists s' !! l
      = Some (py_slice (sort_by (fitness_of (st_fitness s)) O)
                (Some 0) (Some lambda_)).
Proof.
  intros HO HP Hlen HF.
  assert (replace_worst_combined P O = O) as HC.
  { unfold replace_worst_combined. rewrite py_slice_drop_last.
    destruct (decide (length O = 0%nat)); [done|].
    by replace (length P - length O)%nat with 0%nat by lia. }
  rewrite <-HC in HF.
  destruct (returns_inv _ _ _
              (replace_worst_returns s offspring population lambda_ O P
                 HO HP HF))
    as (l & s' & Hrun & Hl & _).
  exists l, s'. split; [done|]. rewrite Hl.
  unfold replace_worst_result. by rewrite HC.
Qed.

(** C4, as the code has it: [lambda_plus_mu_elimination] returns only when
    the global name [fitness_sharing] is defined, and [replace_worst] sorts
    [population[:-len(offspring)] + offspring], which is shorter than the
    two lists together; within these bounds each returns exactly [lambda_]
    individuals, sorted ascending by fitness, all from the population or
    the offspring. *)
Theorem plain_strategies_sorted_survivors
    s offspring population lambda_ alpha sigma O P :
  st_lists s !! offspring = Some O →
  st_lists s !! population = Some P →
  Forall (has_fitness (st_fitness s)) (P ++ O) →
  0 < lambda_ →
  (is_Some (st_fitness_sharing s) →
   lambda_ ≤ Z.of_nat (length (P ++ O)) →
   ∃ l s' R,
     lambda_plus_mu_elimination distance power
       offspring population lambda_ alpha sigma s = Ok l s'
     ∧ st_lists s' !! l = Some R
     ∧ sorted_survivors s' P O lambda_ R)
  ∧ (lambda_ ≤ Z.of_nat (length (replace_worst_combined P O)) →
     ∃ l s' R,
       replace_worst offspring population lambda_ s = Ok l s'
       ∧ st_lists s' !! l = Some R
       ∧ sorted_survivors s' P O lambda_ R).
Proof.
  intros HO HP HF Hpos. split.
  - intros [b Hb] Hle.
    destruct (returns_inv _ _ _
                (lambda_plus_mu_elimination_returns distance power
                   s offspring population lambda_ alpha sigma O P b
                   HO HP HF Hb))
      as (l & s' & Hrun & Hl & F).
    exists l, s', (lambda_plus_mu_result (st_fitness s) P O lambda_).
    split_and!; [done | done |]. unfold sorted_survivors. split_and!.
    + apply lambda_plus_mu_result_length. lia.
    + rewrite (frame_fitness _ _ _ F). apply lambda_plus_mu_result_sorted.
    + apply Forall_forall. intros x. apply lambda_plus_mu_result_elem_of.
  - intros Hle.
    assert (Forall (has_fitness (st_fitness s)) (replace_worst_combined P O))
      as HF'.
    { rewrite Forall_forall in HF. apply Forall_forall. intros x Hx.
      apply HF. unfold replace_worst_combined in Hx.
      apply elem_of_app in Hx as [Hx%elem_of_py_slice|Hx];
        apply elem_of_app; auto. }
    destruct (returns_inv _ _ _
                (replace_worst_returns s offspring population lambda_ O P
                   HO HP HF'))
      as (l & s' & Hrun & Hl & F).
    exists l, s', (replace_worst_result (st_fitness s) P O lambda_).
    split_and!; [done | done |]. unfold sorted_survivors. split_and!.
    + apply replace_worst_result_length. lia.
    + rewrite (frame_fitness _ _ _ F). apply replace_worst_result_sorted.
    + apply Forall_forall. intros x. apply replace_worst_result_elem_of.
Qed.

(** C5: on lists of individuals with a fitness, not both empty, and
    [lambda_] not negative, [fitness_sharing_elimination] returns
    [lambda_ + 1] survivors: the seed and one more for each iteration. *)
Theorem fitness_sharing_elimination_length
    s offspring population lambda_ alpha sigma O P :
  st_lists s !! offspring = Some O →
  st_lists s !! population = Some P →
  Forall (has_fitness (st_fitness s)) (P ++ O) →
  P ++ O ≠ [] →
  0 ≤ lambda_ →
  ∃ l s' R,
    fitness_sharing_elimination distance power
      offspring population lambda_ alpha sigma s = Ok l s'
    ∧ st_lists s' !! l = Some R
    ∧ Z.of_nat (length R) = lambda_ + 1.
Proof.
  intros HO HP HF Hne Hpos.
  destruct (returns_inv _ _ _
              (fitness_sharing_elimination_returns distance power
                 s offspring population lambda_ alpha sigma O P
                 HO HP HF Hne))
    as (l & s' & Hrun & c0 & R & Hl & _ & Hgreedy).
  exists l, s', R. split_and!; [done..|].
  apply greedy_survivors_shape in Hgreedy as (S' & -> & Hlen & _).
  rewrite length_app, Hlen. simpl. lia.
Qed.

(** C6: [lambda_plus_mu_elimination] reads the global name
    [fitness_sharing], which the module does not define.  While the name is
    undefined no call returns: every call ends in an exception, and a call
    on valid lists of individuals with a fitness ends in NameError, raised
    where the name is read, after the truncated list has been built and
    before it could be returned. *)
Theorem lambda_plus_mu_requires_fitness_sharing
    s offspring population lambda_ alpha sigma :
  st_fitness_sharing s = None →
  (∃ e s',
     lambda_plus_mu_elimination distance power
       offspring population lambda_ alpha sigma s = Raise e s')
  ∧ (∀ O P,
       st_lists s !! offspring = Some O →
       st_lists s !! population = Some P →
       Forall (has_fitness (st_fitness s)) (P ++ O) →
       ∃ s',
         lambda_plus_mu_elimination distance power
           offspring population lambda_ alpha sigma s = Raise NameError s'
         ∧ frame true s s').
Proof.
  intros Hnone. split.
  - unfold lambda_plus_mu_elimination.
    apply bind_raises. intros c1 s1 E1.
    pose proof (preserves_ok true s _ _ s _ _
                  (preserves_list_add true s population offspring)
                  (reflexivity s) E1) as F1.
    apply bind_raises. intros c2 s2 E2.
    pose proof (preserves_ok true s _ _ s1 _ _
                  (preserves_sorted_by_fitness true s c1) F1 E2) as F2.
    apply bind_raises. intros c3 s3 E3.
    pose proof (preserves_ok true s _ _ s2 _ _
                  (preserves_list_slice true s c2 None (Some lambda_)) F2 E3)
      as F3.
    unfold bind at 1, global_fitness_sharing.
    rewrite (frame_global _ _ _ F3), Hnone. eauto.
  - intros O P HO HP HF. unfold lambda_plus_mu_elimination.
    destruct (returns_inv _ _ _
                (returns_list_add population offspring s P O
                   (new_at s (P ++ O)) HP HO (λ _ _ H, H)))
      as (c1 & s1 & E1 & H1).
    rewrite (bind_ok _ _ _ _ _ E1).
    assert (Forall (has_fitness (st_fitness s1)) (P ++ O)) as HF1.
    { by rewrite (new_at_fitness _ _ _ _ H1). }
    destruct (returns_inv _ _ _
                (returns_sorted_by_fitness c1 s1 (P ++ O)
                   (new_at s1 (sort_by (fitness_of (st_fitness s1)) (P ++ O)))
                   (new_at_lookup _ _ _ _ H1) HF1 (λ _ _ H, H)))
      as (c2 & s2 & E2 & H2).
    rewrite (bind_ok _ _ _ _ _ E2).
    destruct (returns_inv _ _ _
                (returns_list_slice c2 None (Some lambda_) s2 _
                   (new_at s2 _) (new_at_lookup _ _ _ _ H2) (λ _ _ H, H)))
      as (c3 & s3 & E3 & H3).
    rewrite (bind_ok _ _ _ _ _ E3).
    assert (frame true s s3) as F3.
    { etrans; [apply H1|]. etrans; [apply H2 | apply H3]. }
    exists s3. split; [|done].
    unfold bind at 1, global_fitness_sharing.
    by rewrite (frame_global _ _ _ F3), Hnone.
Qed.

(** C7: on lists of individuals with a fitness, not both empty, with
    [lambda_] and [k] at least one, [k_tournament_elimination] returns
    [lambda_] individuals; the first has the least fitness of the pool, and
    all are members of the population or the offspring. *)
Theorem k_tournament_elimination_survivors
    s offspring population lambda_ k O P :
  st_lists s !! offspring = Some O →
  st_lists s !! population = Some P →
  Forall (has_fitness (st_fitness s)) (P ++ O) →
  P ++ O ≠ [] →
  1 ≤ lambda_ →
  1 ≤ k →
  ∃ l s' c0 R,
    k_tournament_elimination offspring population lambda_ k s = Ok l s'
    ∧ st_lists s' !! l = Some (c0 :: R)
    ∧ Z.of_nat (length (c0 :: R)) = lambda_
    ∧ Forall (λ x, (fitness_of (st_fitness s) c0
                    <= fitness_of (st_fitness s) x)%Q) (P ++ O)
    ∧ Forall (λ x, x ∈ P ∨ x ∈ O) (c0 :: R).
Proof.
  intros HO HP HF Hne Hlambda Hk.
  destruct (returns_inv _ _ _
              (k_tournament_elimination_returns
                 s offspring population lambda_ k O P HO HP HF Hne Hk))
    as (l & s' & Hrun & c0 & R & Hl & Hc0 & Hlen & Hin).
  exists l, s', c0, R. split_and!; [done | done | | |].
  - simpl. rewrite Hlen. lia.
  - apply Forall_forall. intros x Hx. by eapply sort_by_head_least.
  - constructor; [|done]. apply elem_of_app.
    rewrite <-(elem_of_sort_by (fitness_of (st_fitness s))).
    destruct (sort_by _ _); simplify_eq/=. by left.
Qed.

(** C9: whatever the input, and whether the call returns or raises, each of
    the four strategies leaves every list object that existed before the
    call, the caller's population and offspring among them, with the same
    members in the same order, and leaves every fitness as it was; only
    [lambda_plus_mu_elimination] may change a shared fitness. *)
Theorem strategies_leave_lists_unchanged
    s offspring population lambda_ alpha sigma k :
  frame true s
    (final (fitness_sharing_elimination distance power
              offspring population lambda_ alpha sigma s))
  ∧ frame true s (final (replace_worst offspring population lambda_ s))
  ∧ frame true s
      (final (k_tournament_elimination offspring population lambda_ k s))
  ∧ frame false s
      (final (lambda_plus_mu_elimination distance power
                offspring population lambda_ alpha sigma s)).
Proof.
  split_and!; eapply preserves_final.
  - apply preserves_fitness_sharing_elimination.
  - apply preserves_replace_worst.
  - apply preserves_k_tournament_elimination.
  - apply preserves_lambda_plus_mu_elimination.
Qed.

(** C10: with no offspring, [replace_worst] returns the empty list, whatever
    the population and [lambda_]: the slice [population[:-0]] is empty. *)
Theorem replace_worst_no_offspring s offspring population lambda_ P :
  st_lists s !! offspring = Some [] →
  st_lists s !! population = Some P →
  ∃ l s',
    replace_worst offspring population lambda_ s = Ok l s'
    ∧ st_lists s' !! l = Some [].
Proof.
  intros HO HP.
  assert (replace_worst_combined P [] = []) as HC.
  { unfold replace_worst_combined. rewrite py_slice_drop_last. reflexivity. }
  assert (Forall (has_fitness (st_fitness s)) (replace_worst_combined P []))
    as HF by (rewrite HC; constructor).
  destruct (returns_inv _ _ _
              (replace_worst_returns s offspring population lambda_ [] P
                 HO HP HF))
    as (l & s' & Hrun & Hl & _).
  exists l, s'. split; [done|]. rewrite Hl. f_equal.
  unfold replace_worst_result. rewrite HC, py_slice_from_0. apply take_nil.
Qed.
End Claims.

(** * The claims on the example inputs *)

Ltac example_fitness_defined :=
  simpl; repeat (constructor; [by eexists|]); constructor.

Lemma replace_worst_example_witness :
  ∃ l s',
    replace_worst 1 0 2
      (example_state [0; 1; 2]%nat [3; 4]%nat None (λ _, 0%nat)) = Ok l s'
    ∧ st_lists s' !! l = Some [3; 0]%nat
    ∧ map (fitness_of (st_fitness s')) [3; 0]%nat = [1%Q; 5%Q].
Proof.
  apply (replace_worst_example
           (example_state [0; 1; 2]%nat [3; 4]%nat None (λ _, 0%nat))
           1%nat 0%nat 0%nat 1%nat 2%nat 3%nat 4%nat);
    reflexivity.
Defined.

(** C2 as stated fails: the fitnesses of the result are not [1, 3]. *)
Lemma replace_worst_example_not_1_3 :
  ∃ l s' R,
    replace_worst 1 0 2
      (example_state [0; 1; 2]%nat [3; 4]%nat None (λ _, 0%nat)) = Ok l s'
    ∧ st_lists s' !! l = Some R
    ∧ ¬ Forall2 Qeq (map (fitness_of (st_fitness s')) R) [1%Q; 3%Q].
Proof.
  eexists _, _, _. split_and!; [vm_compute; reflexivity | reflexivity |].
  intros H. apply Forall2_cons_1 in H as [_ H].
  apply Forall2_cons_1 in H as [H _]. vm_compute in H. discriminate H.
Qed.

Lemma replace_worst_more_offspring_witness :
  ∃ l s',
    replace_worst 1 0 2 (example_state [0]%nat [3; 4]%nat None (λ _, 0%nat))
    = Ok l s'
    ∧ st_lists s' !! l
      = Some (py_slice (sort_by (fitness_of example_fitness) [3; 4]%nat)
                (Some 0) (Some 2)).
Proof.
  apply (replace_worst_more_offspring
           (example_state [0]%nat [3; 4]%nat None (λ _, 0%nat))
           1%nat 0%nat 2 [3; 4]%nat [0]%nat);
    [reflexivity | reflexivity | simpl; lia | example_fitness_defined].
Defined.

(** C3 as stated fails: with two offspring and one parent the call returns
    the two offspring and raises nothing. *)
Lemma replace_worst_more_offspring_no_error :
  (∃ l s',
     replace_worst 1 0 2 (example_state [0]%nat [3; 4]%nat None (λ _, 0%nat))
     = Ok l s'
     ∧ st_lists s' !! l = Some [3; 4]%nat)
  ∧ ¬ ∃ e s',
        replace_worst 1 0 2
          (example_state [0]%nat [3; 4]%nat None (λ _, 0%nat)) = Raise e s'.
Proof.
  split.
  - eexists _, _. split; [vm_compute; reflexivity | reflexivity].
  - intros (e & s' & H). vm_compute in H. discriminate H.
Qed.

Lemma plain_strategies_sorted_survivors_witness :
  (∃ l s' R,
     lambda_plus_mu_elimination example_distance example_power 1 0 2 1 1
       (example_state [0; 1; 2]%nat [3; 4]%nat (Some true) (λ _, 0%nat))
     = Ok l s'
     ∧ st_lists s' !! l = Some R
     ∧ sorted_survivors s' [0; 1; 2]%nat [3; 4]%nat 2 R)
  ∧ (∃ l s' R,
       replace_worst 1 0 2
         (example_state [0; 1; 2]%nat [3; 4]%nat (Some true) (λ _, 0%nat))
       = Ok l s'
       ∧ st_lists s' !! l = Some R
       ∧ sorted_survivors s' [0; 1; 2]%nat [3; 4]%nat 2 R).
Proof.
  destruct (plain_strategies_sorted_survivors
              example_distance example_power
              (example_state [0; 1; 2]%nat [3; 4]%nat (Some true)
                 (λ _, 0%nat))
              1%nat 0%nat 2 1 1 [3; 4]%nat [0; 1; 2]%nat)
    as [H1 H2]; [reflexivity | reflexivity | example_fitness_defined | lia |].
  split; [apply H1; [by eexists | simpl; lia] | apply H2; simpl; lia].
Defined.

(** C4 as stated fails on both functions: with valid lists and [lambda_ = 2]
    [lambda_plus_mu_elimination] raises NameError in the module as it is,
    where [fitness_sharing] is undefined; and [replace_worst] with
    [lambda_ = 4], within the five individuals of the two lists, returns
    three. *)
Lemma plain_strategies_as_stated_fail :
  (∃ s',
     lambda_plus_mu_elimination example_distance example_power 1 0 2 1 1
       (example_state [0; 1; 2]%nat [3; 4]%nat None (λ _, 0%nat))
     = Raise NameError s')
  ∧ (∃ l s' R,
       replace_worst 1 0 4
         (example_state [0; 1; 2]%nat [3; 4]%nat None (λ _, 0%nat))
       = Ok l s'
       ∧ st_lists s' !! l = Some R
       ∧ length R = 3%nat).
Proof.
  split.
  - eexists. vm_compute. reflexivity.
  - eexists _, _, _. split_and!; [vm_compute; reflexivity | reflexivity..].
Qed.

Lemma fitness_sharing_elimination_length_witness :
  ∃ l s' R,
    fitness_sharing_elimination example_distance example_power 1 0 2 1 1
      (example_state [0; 1; 2]%nat [3; 4]%nat None (λ _, 0%nat)) = Ok l s'
    ∧ st_lists s' !! l = Some R
    ∧ Z.of_nat (length R) = 2 + 1.
Proof.
  apply (fitness_sharing_elimination_length example_distance example_power
           (example_state [0; 1; 2]%nat [3; 4]%nat None (λ _, 0%nat))
           1%nat 0%nat 2 1 1 [3; 4]%nat [0; 1; 2]%nat);
    [reflexivity | reflexivity | example_fitness_defined | done | lia].
Defined.

Lemma lambda_plus_mu_requires_fitness_sharing_witness :
  (∃ e s',
     lambda_plus_mu_elimination example_distance example_power 1 0 2 1 1
       (example_state [0; 1; 2]%nat [3; 4]%nat None (λ _, 0%nat))
     = Raise e s')
  ∧ ∃ s',
      lambda_plus_mu_elimination example_distance example_power 1 0 2 1 1
        (example_state [0; 1; 2]%nat [3; 4]%nat None (λ _, 0%nat))
      = Raise NameError s'
      ∧ frame true
          (example_state [0; 1; 2]%nat [3; 4]%nat None (λ _, 0%nat)) s'.
Proof.
  destruct (lambda_plus_mu_requires_fitness_sharing
              example_distance example_power
              (example_state [0; 1; 2]%nat [3; 4]%nat None (λ _, 0%nat))
              1%nat 0%nat 2 1 1)
    as [H1 H2]; [reflexivity|].
  split; [exact H1|].
  apply (H2 [3; 4]%nat [0; 1; 2]%nat);
    [reflexivity | reflexivity | example_fitness_defined].
Defined.

Lemma k_tournament_elimination_survivors_witness :
  ∃ l s' c0 R,
    k_tournament_elimination 1 0 3 2
      (example_state [0; 1; 2]%nat [3; 4]%nat None (λ n, n)) = Ok l s'
    ∧ st_lists s' !! l = Some (c0 :: R)
    ∧ Z.of_nat (length (c0 :: R)) = 3
    ∧ Forall (λ x, (fitness_of example_fitness c0
                    <= fitness_of example_fitness x)%Q)
        ([0; 1; 2] ++ [3; 4])%nat
    ∧ Forall (λ x, x ∈ [0; 1; 2]%nat ∨ x ∈ [3; 4]%nat) (c0 :: R).
Proof.
  apply (k_tournament_elimination_survivors
           (example_state [0; 1; 2]%nat [3; 4]%nat None (λ n, n))
           1%nat 0%nat 3 2 [3; 4]%nat [0; 1; 2]%nat);
    [reflexivity | reflexivity | example_fitness_defined | done | lia | lia].
Defined.



Lemma replace_worst_no_offspring_witness :
  ∃ l s',
    replace_worst 1 0 2 (example_state [0; 1; 2]%nat [] None (λ _, 0%nat))
    = Ok l s'
    ∧ st_lists s' !! l = Some [].
Proof.
  apply (replace_worst_no_offspring
           (example_state [0; 1; 2]%nat [] None (λ _, 0%nat))
           1%nat 0%nat 2 [0; 1; 2]%nat);
    reflexivity.
Defined.

(** * Further properties of the strategies *)

(** ** Runs that raise *)

Lemma raises_bind {A B} (m : M A) (k : A → M B) s e :
  returns m s (λ a s', raises (k a) s' e) → raises (bind m k) s e.
Proof. unfold returns, raises, bind. by destruct (m s). Qed.

Lemma raises_bind_now {A B} (m : M A) (k : A → M B) s e :
  raises m s e → raises (bind m k) s e.
Proof. unfold raises, bind. intros [s' ->]. eauto. Qed.

Lemma mapM_getattr_fitness_raises s xs :
  Exists (λ x, st_fitness s !! x = None) xs →
  raises (mapM getattr_fitness xs) s AttributeError.
Proof.
  induction xs as [|x xs IH]; intros H; [by apply Exists_nil in H|].
  simpl. destruct (st_fitness s !! x) as [q|] eqn:Hx.
  - apply Exists_cons in H as [H|H]; [congruence|].
    apply raises_bind. eapply returns_getattr_fitness; [done|].
    by apply raises_bind_now, IH.
  - apply raises_bind_now. exists s. unfold getattr_fitness. by rewrite Hx.
Qed.

Lemma sorted_by_fitness_raises a s xs :
  st_lists s !! a = Some xs →
  Exists (λ x, st_fitness s !! x = None) xs →
  raises (sorted_by_fitness a) s AttributeError.
Proof.
  intros Ha Hxs. unfold sorted_by_fitness.
  apply raises_bind. eapply returns_read_list; [done|].
  by apply raises_bind_now, mapM_getattr_fitness_raises.
Qed.

Section FurtherProperties.
Context (distance : nat → nat → Q) (power : Q → Q → Q).

(** X1: an individual of the pool without a fitness makes
    [fitness_sharing_elimination], [lambda_plus_mu_elimination] and
    [k_tournament_elimination] raise AttributeError, where the pool is
    sorted; for [lambda_plus_mu_elimination] this comes before the global
    name is read. *)
Theorem missing_fitness_raises
    s offspring population lambda_ alpha sigma k O P :
  st_lists s !! offspring = Some O →
  st_lists s !! population = Some P →
  Exists (λ x, st_fitness s !! x = None) (P ++ O) →
  raises (fitness_sharing_elimination distance power
            offspring population lambda_ alpha sigma) s AttributeError
  ∧ raises (lambda_plus_mu_elimination distance power
              offspring population lambda_ alpha sigma) s AttributeError
  ∧ raises (k_tournament_elimination offspring population lambda_ k) s
      AttributeError.
Proof.
  intros HO HP Hmissing.
  assert (∀ B (rest : nat → M B),
            raises (let! combined := list_add population offspring in
                    let! combined := sorted_by_fitness combined in
                    rest combined) s AttributeError) as H.
  { intros B rest. apply raises_bind. eapply returns_list_add; [done..|].
    intros c1 s1 H1. apply raises_bind_now.
    eapply sorted_by_fitness_raises; [apply H1|].
    by rewrite (new_at_fitness _ _ _ _ H1). }
  split_and!; apply H.
Qed.

(** X2: [replace_worst] raises AttributeError when a member of the list it
    sorts, [population[:-len(offspring)] + offspring], has no fitness. *)
Theorem replace_worst_missing_fitness_raises
    s offspring population lambda_ O P :
  st_lists s !! offspring = Some O →
  st_lists s !! population = Some P →
  Exists (λ x, st_fitness s !! x = None) (replace_worst_combined P O) →
  raises (replace_worst offspring population lambda_) s AttributeError.
Proof.
  intros HO HP Hmissing. unfold replace_worst.
  apply raises_bind. eapply returns_list_len; [done|].
  apply raises_bind. eapply returns_list_slice; [done|].
  intros kept s1 H1.
  apply raises_bind. eapply returns_list_add;
    [apply H1 | by eapply new_at_old |].
  intros combined s2 H2. apply raises_bind_now.
  eapply sorted_by_fitness_raises; [apply H2|].
  by rewrite (new_at_fitness _ _ _ _ H2), (new_at_fitness _ _ _ _ H1).
Qed.

(** X3: on an empty pool [fitness_sharing_elimination] and
    [k_tournament_elimination] raise IndexError, where they read
    [combined[0]], whatever [lambda_] and [k] are. *)
Theorem empty_pool_raises s offspring population lambda_ alpha sigma k :
  st_lists s !! offspring = Some [] →
  st_lists s !! population = Some [] →
  raises (fitness_sharing_elimination distance power
            offspring population lambda_ alpha sigma) s IndexError
  ∧ raises (k_tournament_elimination offspring population lambda_ k) s
      IndexError.
Proof.
  intros HO HP.
  assert (∀ B (rest : nat → nat → M B),
            raises (let! combined := list_add population offspring in
                    let! combined := sorted_by_fitness combined in
                    let! c0 := list_getitem combined 0 in
                    rest combined c0) s IndexError) as H.
  { intros B rest. apply raises_bind. eapply returns_list_add; [done..|].
    intros c1 s1 H1. apply raises_bind.
    eapply returns_sorted_by_fitness; [apply H1 | by constructor |].
    intros c2 s2 H2. apply raises_bind_now. unfold list_getitem.
    apply raises_bind. eapply returns_read_list; [apply H2|].
    by exists s2. }
  split; apply H.
Qed.

(** The list that a strategy returns is a list object made by the call. *)
Lemma preserves_fresh_fitness_sharing_elimination
    s0 offspring population lambda_ alpha sigma :
  preserves true s0 (fresh_in s0)
    (fitness_sharing_elimination distance power
       offspring population lambda_ alpha sigma).
Proof.
  pose proof (preserves_fitness_sharing_step distance power true s0).
  preserves_auto fitness_sharing_elimination.
Qed.

Lemma preserves_fresh_lambda_plus_mu_elimination
    s0 offspring population lambda_ alpha sigma :
  preserves false s0 (fresh_in s0)
    (lambda_plus_mu_elimination distance power
       offspring population lambda_ alpha sigma).
Proof.
  pose proof (preserves_shared_fitness_update distance power s0).
  preserves_auto lambda_plus_mu_elimination.
Qed.

Lemma preserves_fresh_replace_worst s0 offspring population lambda_ :
  preserves true s0 (fresh_in s0) (replace_worst offspring population lambda_).
Proof. preserves_auto replace_worst. Qed.

Lemma preserves_fresh_k_tournament_elimination
    s0 offspring population lambda_ k :
  preserves true s0 (fresh_in s0)
    (k_tournament_elimination offspring population lambda_ k).
Proof.
  pose proof (preserves_k_tournament_selection true s0).
  preserves_auto k_tournament_elimination.
Qed.

(** X4: the list that a strategy returns is a new list object: it did not
    exist before the call, so it is neither the caller's population nor the
    caller's offspring, and changing it later changes neither. *)
Theorem strategies_return_new_list
    s offspring population lambda_ alpha sigma k :
  (∀ l s',
     fitness_sharing_elimination distance power
       offspring population lambda_ alpha sigma s = Ok l s' →
     st_lists s !! l = None)
  ∧ (∀ l s',
       lambda_plus_mu_elimination distance power
         offspring population lambda_ alpha sigma s = Ok l s' →
       st_lists s !! l = None)
  ∧ (∀ l s',
       replace_worst offspring population lambda_ s = Ok l s' →
       st_lists s !! l = None)
  ∧ (∀ l s',
       k_tournament_elimination offspring population lambda_ k s = Ok l s' →
       st_lists s !! l = None).
Proof.
  assert (∀ strict (m : M nat),
            preserves strict s (fresh_in s) m →
            ∀ l s', m s = Ok l s' → st_lists s !! l = None) as H.
  { intros strict m Hm l s' Hrun. specialize (Hm s (reflexivity s)).
    rewrite Hrun in Hm. destruct Hm as [_ Hl]. by apply lookup_ge_None. }
  split_and!; eapply H.
  - apply preserves_fresh_fitness_sharing_elimination.
  - apply preserves_fresh_lambda_plus_mu_elimination.
  - apply preserves_fresh_replace_worst.
  - apply preserves_fresh_k_tournament_elimination.
Qed.

(** A slice [l[:n]] or [l[0:n]] of a sorted list and what it leaves out:
    together they are the list, and no member left out has a smaller key
    than a member of the slice. *)
Lemma sorted_prefix_best {A} (key : A → Q) (l : list A) (n : nat) :
  take n (sort_by key l) ++ drop n (sort_by key l) ≡ₚ l
  ∧ ∀ x y, x ∈ take n (sort_by key l) → y ∈ drop n (sort_by key l) →
           (key x <= key y)%Q.
Proof.
  split; [by rewrite take_drop, sort_by_perm|].
  intros x y Hx Hy. pose proof (sort_by_sorted key l) as Hs.
  rewrite <-(take_drop n (sort_by key l)) in Hs.
  by apply (StronglySorted_app_1_elem_of _ _ _ x y) in Hs.
Qed.

(** X5: [lambda_plus_mu_elimination] keeps the best: the survivors and the
    individuals left out make up the pool, and no individual left out has
    a smaller fitness than a survivor; this for every [lambda_], also a
    negative one or one beyond the size of the pool. *)
Theorem lambda_plus_mu_elimination_keeps_best
    s offspring population lambda_ alpha sigma O P :
  st_lists s !! offspring = Some O →
  st_lists s !! population = Some P →
  Forall (has_fitness (st_fitness s)) (P ++ O) →
  is_Some (st_fitness_sharing s) →
  ∃ l s' R rest,
    lambda_plus_mu_elimination distance power
      offspring population lambda_ alpha sigma s = Ok l s'
    ∧ st_lists s' !! l = Some R
    ∧ R ++ rest ≡ₚ P ++ O
    ∧ ∀ x y, x ∈ R → y ∈ rest →
        (fitness_of (st_fitness s) x <= fitness_of (st_fitness s) y)%Q.
Proof.
  intros HO HP HF [b Hb].
  destruct (returns_inv _ _ _
              (lambda_plus_mu_elimination_returns distance power
                 s offspring population lambda_ alpha sigma O P b
                 HO HP HF Hb))
    as (l & s' & Hrun & Hl & _).
  unfold lambda_plus_mu_result in Hl. rewrite py_slice_prefix in Hl.
  destruct (sorted_prefix_best (fitness_of (st_fitness s)) (P ++ O)
              (slice_bound (length (sort_by (fitness_of (st_fitness s))
                                      (P ++ O))) lambda_))
    as [Hperm Hbest].
  by eexists l, s', _, _.
Qed.

(** X6: [replace_worst] keeps the best of the list it sorts,
    [population[:-len(offspring)] + offspring]: the survivors and the
    members left out make up that list, and no member left out has a
    smaller fitness than a survivor.  The last [len(offspring)] members of
    the population are dropped before, whatever their fitness, which need
    not even be defined. *)
Theorem replace_worst_keeps_best s offspring population lambda_ O P :
  st_lists s !! offspring = Some O →
  st_lists s !! population = Some P →
  Forall (has_fitness (st_fitness s)) (replace_worst_combined P O) →
  ∃ l s' R rest,
    replace_worst offspring population lambda_ s = Ok l s'
    ∧ st_lists s' !! l = Some R
    ∧ R ++ rest ≡ₚ replace_worst_combined P O
    ∧ ∀ x y, x ∈ R → y ∈ rest →
        (fitness_of (st_fitness s) x <= fitness_of (st_fitness s) y)%Q.
Proof.
  intros HO HP HF.
  destruct (returns_inv _ _ _
              (replace_worst_returns s offspring population lambda_ O P
                 HO HP HF))
    as (l & s' & Hrun & Hl & _).
  unfold replace_worst_result in Hl. rewrite py_slice_from_0 in Hl.
  destruct (sorted_prefix_best (fitness_of (st_fitness s))
              (replace_worst_combined P O)
              (slice_bound (length (sort_by (fitness_of (st_fitness s))
                                      (replace_worst_combined P O)))
                 lambda_))
    as [Hperm Hbest].
  by eexists l, s', _, _.
Qed.

(** Among the members of one key, a slice [l[:n]] of the sorted list holds
    the first ones, in the order they had in [l]. *)
Lemma filter_prefix {A} (P : A → Prop) `{∀ x, Decision (P x)} (l1 l2 : list A) :
  l1 `prefix_of` l2 → filter P l1 `prefix_of` filter P l2.
Proof. intros [k ->]. rewrite filter_app. by apply prefix_app_r. Qed.

(** X7: ties are settled by position: among the individuals of one
    fitness, the survivors of [lambda_plus_mu_elimination] are the first
    ones in the order of [population + offspring], so parents go before
    offspring, and they keep that order. *)
Theorem lambda_plus_mu_elimination_ties
    s offspring population lambda_ alpha sigma O P (q : Q) :
  st_lists s !! offspring = Some O →
  st_lists s !! population = Some P →
  Forall (has_fitness (st_fitness s)) (P ++ O) →
  is_Some (st_fitness_sharing s) →
  ∃ l s' R,
    lambda_plus_mu_elimination distance power
      offspring population lambda_ alpha sigma s = Ok l s'
    ∧ st_lists s' !! l = Some R
    ∧ filter (λ x, Qeq_bool (fitness_of (st_fitness s) x) q = true) R
      `prefix_of`
      filter (λ x, Qeq_bool (fitness_of (st_fitness s) x) q = true) P
      ++ filter (λ x, Qeq_bool (fitness_of (st_fitness s) x) q = true) O.
Proof.
  intros HO HP HF [b Hb].
  destruct (returns_inv _ _ _
              (lambda_plus_mu_elimination_returns distance power
                 s offspring population lambda_ alpha sigma O P b
                 HO HP HF Hb))
    as (l & s' & Hrun & Hl & _).
  exists l, s', (lambda_plus_mu_result (st_fitness s) P O lambda_).
  split_and!; [done..|].
  rewrite <-filter_app.
  assert (filter (λ x, Qeq_bool (fitness_of (st_fitness s) x) q = true)
            (P ++ O)
          = filter (λ x, Qeq_bool (fitness_of (st_fitness s) x) q = true)
              (sort_by (fitness_of (st_fitness s)) (P ++ O))) as ->.
  { symmetry. apply sort_by_stable. }
  apply filter_prefix. unfold lambda_plus_mu_result.
  rewrite py_slice_prefix. apply prefix_take.
Qed.

(** X8: with [lambda_] at most 1, [k_tournament_elimination] runs no
    tournament: it returns the best individual alone, one survivor also
    for [lambda_ ≤ 0], and draws nothing from the random source, whatever
    [k] is. *)
Theorem k_tournament_elimination_no_tournament
    s offspring population lambda_ k O P :
  st_lists s !! offspring = Some O →
  st_lists s !! population = Some P →
  Forall (has_fitness (st_fitness s)) (P ++ O) →
  P ++ O ≠ [] →
  lambda_ ≤ 1 →
  ∃ l s' c0,
    k_tournament_elimination offspring population lambda_ k s = Ok l s'
    ∧ st_lists s' !! l = Some [c0]
    ∧ head (sort_by (fitness_of (st_fitness s)) (P ++ O)) = Some c0
    ∧ st_drawn s' = st_drawn s.
Proof.
  intros HO HP HF Hne Hlambda.
  assert (returns (k_tournament_elimination offspring population lambda_ k) s
            (λ l s', ∃ c0,
               st_lists s' !! l = Some [c0]
               ∧ head (sort_by (fitness_of (st_fitness s)) (P ++ O)) = Some c0
               ∧ st_drawn s' = st_drawn s))
    as (l & s' & Hrun & c0 & H)%returns_inv; [|by exists l, s', c0].
  unfold k_tournament_elimination.
  apply returns_bind. eapply returns_list_add; [done..|].
  intros c1 s1 H1.
  apply returns_bind. eapply returns_sorted_by_fitness; [apply H1 | |].
  { by rewrite (new_at_fitness _ _ _ _ H1). }
  intros c2 s2 H2. rewrite (new_at_fitness _ _ _ _ H1) in H2.
  destruct (sort_by (fitness_of (st_fitness s)) (P ++ O))
    as [|c0 C'] eqn:EC.
  { destruct Hne. apply Permutation_nil_r. by rewrite <-EC, sort_by_perm. }
  apply returns_bind. eapply returns_list_getitem;
    [apply H2 | by rewrite py_index_0 |].
  apply returns_bind. apply returns_new_list. intros best s3 H3.
  assert (py_range 0 (lambda_ - 1) = []) as ->.
  { unfold py_range.
    by replace (Z.to_nat (lambda_ - 1 - 0)) with 0%nat by lia. }
  simpl. apply returns_bind, returns_ret.
  apply returns_bind. apply returns_new_list. intros rest s4 H4.
  eapply returns_list_add; [by eapply new_at_old; [apply H4 | apply H3]
                           | apply H4 |].
  intros l s5 H5. exists c0. split_and!; [apply H5 | done |].
  rewrite (new_at_drawn _ _ _ _ H5), (new_at_drawn _ _ _ _ H4),
    (new_at_drawn _ _ _ _ H3), (new_at_drawn _ _ _ _ H2).
  apply H1.
Qed.

(** X9: with [lambda_ ≤ 0], [fitness_sharing_elimination] makes no
    iteration and returns the best individual alone: one survivor, not
    none. *)
Theorem fitness_sharing_elimination_seed_only
    s offspring population lambda_ alpha sigma O P :
  st_lists s !! offspring = Some O →
  st_lists s !! population = Some P →
  Forall (has_fitness (st_fitness s)) (P ++ O) →
  P ++ O ≠ [] →
  lambda_ ≤ 0 →
  ∃ l s' c0,
    fitness_sharing_elimination distance power
      offspring population lambda_ alpha sigma s = Ok l s'
    ∧ st_lists s' !! l = Some [c0]
    ∧ head (sort_by (fitness_of (st_fitness s)) (P ++ O)) = Some c0.
Proof.
  intros HO HP HF Hne Hlambda.
  destruct (returns_inv _ _ _
              (fitness_sharing_elimination_returns distance power
                 s offspring population lambda_ alpha sigma O P
                 HO HP HF Hne))
    as (l & s' & Hrun & c0 & R & Hl & Hc0 & Hgreedy).
  exists l, s', c0. split_and!; [done | | done].
  replace (Z.to_nat lambda_) with 0%nat in Hgreedy by lia.
  by inversion Hgreedy; subst.
Qed.

(** X10: every survivor of [fitness_sharing_elimination] is a member of
    the population or the offspring, and the first one has the least
    fitness of the pool.  The later survivors are [combined[idx]] for the
    index that [np.argmin] finds in the values of [calc_shared_fitnesses],
    a helper that is modelled from the spec: one value for each member of
    [combined]. *)
Theorem fitness_sharing_elimination_survivors
    s offspring population lambda_ alpha sigma O P :
  st_lists s !! offspring = Some O →
  st_lists s !! population = Some P →
  Forall (has_fitness (st_fitness s)) (P ++ O) →
  P ++ O ≠ [] →
  ∃ l s' c0 R,
    fitness_sharing_elimination distance power
      offspring population lambda_ alpha sigma s = Ok l s'
    ∧ st_lists s' !! l = Some (c0 :: R)
    ∧ Forall (λ x, (fitness_of (st_fitness s) c0
                    <= fitness_of (st_fitness s) x)%Q) (P ++ O)
    ∧ Forall (λ x, x ∈ P ∨ x ∈ O) (c0 :: R).
Proof.
  intros HO HP HF Hne.
  destruct (returns_inv _ _ _
              (fitness_sharing_elimination_returns distance power
                 s offspring population lambda_ alpha sigma O P
                 HO HP HF Hne))
    as (l & s' & Hrun & c0 & R & Hl & Hc0 & Hgreedy).
  apply greedy_survivors_shape in Hgreedy as (S' & -> & _ & Hin).
  assert (∀ x, x ∈ sort_by (fitness_of (st_fitness s)) (P ++ O) →
               x ∈ P ∨ x ∈ O) as Hsub.
  { intros x Hx%elem_of_sort_by. by apply elem_of_app. }
  exists l, s', c0, S'. split_and!; [done | done | |].
  - apply Forall_forall. intros x Hx. by eapply sort_by_head_least.
  - constructor.
    + apply Hsub. destruct (sort_by _ _); simplify_eq/=. by left.
    + eapply Forall_impl; [done|]. intros x Hx. by apply Hsub.
Qed.

(** With [fitness_sharing] false the loop over the survivors is not
    entered, and no shared fitness changes. *)
Lemma lambda_plus_mu_elimination_plain_returns
    s offspring population lambda_ alpha sigma O P :
  st_lists s !! offspring = Some O →
  st_lists s !! population = Some P →
  Forall (has_fitness (st_fitness s)) (P ++ O) →
  st_fitness_sharing s = Some false →
  returns (lambda_plus_mu_elimination distance power
             offspring population lambda_ alpha sigma) s (λ l s',
    st_lists s' !! l = Some (lambda_plus_mu_result (st_fitness s) P O lambda_)
    ∧ frame true s s').
Proof.
  intros HO HP HF Hb. unfold lambda_plus_mu_elimination.
  apply returns_bind. eapply returns_list_add; [done..|].
  intros c1 s1 H1.
  apply returns_bind. eapply returns_sorted_by_fitness; [apply H1 | |].
  { by rewrite (new_at_fitness _ _ _ _ H1). }
  intros c2 s2 H2. rewrite (new_at_fitness _ _ _ _ H1) in H2.
  apply returns_bind. eapply returns_list_slice; [apply H2|].
  intros c3 s3 H3.
  assert (frame true s s3) as F3.
  { etrans; [apply H1|]. etrans; [apply H2 | apply H3]. }
  apply returns_bind. eapply returns_global_fitness_sharing.
  { by rewrite (frame_global _ _ _ F3). }
  apply returns_bind, returns_ret, returns_ret. split; [apply H3 | done].
Qed.

(** X11: the survivors of [lambda_plus_mu_elimination] depend on the
    members of the two lists and on their fitness only: two calls on
    stores that agree on these return the same individuals in the same
    order, whatever [fitness_sharing], [alpha], [sigma] and the shared
    fitnesses are in each. *)
Theorem lambda_plus_mu_elimination_survivors_depend_on_fitness
    s1 s2 offspring1 population1 offspring2 population2 lambda_
    alpha1 sigma1 alpha2 sigma2 O P :
  st_lists s1 !! offspring1 = Some O →
  st_lists s1 !! population1 = Some P →
  st_lists s2 !! offspring2 = Some O →
  st_lists s2 !! population2 = Some P →
  st_fitness s1 = st_fitness s2 →
  Forall (has_fitness (st_fitness s1)) (P ++ O) →
  is_Some (st_fitness_sharing s1) →
  is_Some (st_fitness_sharing s2) →
  ∃ l1 s1' l2 s2' R,
    lambda_plus_mu_elimination distance power
      offspring1 population1 lambda_ alpha1 sigma1 s1 = Ok l1 s1'
    ∧ lambda_plus_mu_elimination distance power
        offspring2 population2 lambda_ alpha2 sigma2 s2 = Ok l2 s2'
    ∧ st_lists s1' !! l1 = Some R
    ∧ st_lists s2' !! l2 = Some R.
Proof.
  intros HO1 HP1 HO2 HP2 HF12 HF [b1 Hb1] [b2 Hb2].
  destruct (returns_inv _ _ _
              (lambda_plus_mu_elimination_returns distance power
                 s1 offspring1 population1 lambda_ alpha1 sigma1 O P b1
                 HO1 HP1 HF Hb1))
    as (l1 & s1' & Hrun1 & Hl1 & _).
  rewrite HF12 in HF.
  destruct (returns_inv _ _ _
              (lambda_plus_mu_elimination_returns distance power
                 s2 offspring2 population2 lambda_ alpha2 sigma2 O P b2
                 HO2 HP2 HF Hb2))
    as (l2 & s2' & Hrun2 & Hl2 & _).
  exists l1, s1', l2, s2', (lambda_plus_mu_result (st_fitness s2) P O lambda_).
  split_and!; [done | done | by rewrite <-HF12 | done].
Qed.

(** X12: with [fitness_sharing] false, [lambda_plus_mu_elimination]
    changes no shared fitness. *)
Theorem lambda_plus_mu_elimination_plain_keeps_shared_fitness
    s offspring population lambda_ alpha sigma O P :
  st_lists s !! offspring = Some O →
  st_lists s !! population = Some P →
  Forall (has_fitness (st_fitness s)) (P ++ O) →
  st_fitness_sharing s = Some false →
  ∃ l s',
    lambda_plus_mu_elimination distance power
      offspring population lambda_ alpha sigma s = Ok l s'
    ∧ st_shared_fitness s' = st_shared_fitness s.
Proof.
  intros HO HP HF Hb.
  destruct (returns_inv _ _ _
              (lambda_plus_mu_elimination_plain_returns
                 s offspring population lambda_ alpha sigma O P
                 HO HP HF Hb))
    as (l & s' & Hrun & _ & F).
  exists l, s'. split; [done|]. by apply F.
Qed.

(** Sorting a sorted list changes nothing. *)
Lemma sort_by_sorted_id {A} (key : A → Q) (l : list A) :
  Sorted (key_le key) l → sort_by key l = l.
Proof.
  unfold sort_by. induction 1 as [|x l Hl IH Hx]; simpl; [done|].
  rewrite IH. destruct Hx as [|y l Hxy]; simpl; [done|].
  apply Qle_bool_iff in Hxy. by rewrite Hxy.
Qed.

(** X13: on a population that is sorted by fitness, with no offspring and
    [lambda_] at least its size, [lambda_plus_mu_elimination] returns the
    same individuals in the same order: a survivor list that is fed back
    alone comes out as it went in. *)
Theorem lambda_plus_mu_elimination_sorted_population
    s offspring population lambda_ alpha sigma P :
  st_lists s !! offspring = Some [] →
  st_lists s !! population = Some P →
  Forall (has_fitness (st_fitness s)) P →
  is_Some (st_fitness_sharing s) →
  Sorted (key_le (fitness_of (st_fitness s))) P →
  Z.of_nat (length P) ≤ lambda_ →
  ∃ l s',
    lambda_plus_mu_elimination distance power
      offspring population lambda_ alpha sigma s = Ok l s'
    ∧ st_lists s' !! l = Some P.
Proof.
  intros HO HP HF [b Hb] Hsorted Hlen.
  rewrite <-(app_nil_r P) in HF.
  destruct (returns_inv _ _ _
              (lambda_plus_mu_elimination_returns distance power
                 s offspring population lambda_ alpha sigma [] P b
                 HO HP HF Hb))
    as (l & s' & Hrun & Hl & _).
  exists l, s'. split; [done|]. rewrite Hl. f_equal.
  unfold lambda_plus_mu_result.
  rewrite app_nil_r, sort_by_sorted_id, py_slice_prefix by done.
  apply take_ge. unfold slice_bound.
  rewrite (proj2 (Z.ltb_ge _ _)) by lia. lia.
Qed.

(** X14: [lambda_plus_mu_elimination] takes any [lambda_]: a [lambda_]
    beyond the size of the pool gives the whole pool, and a negative one,
    by the rule of Python slices, the pool without its [-lambda_] worst
    individuals; neither is an error. *)
Theorem lambda_plus_mu_elimination_length
    s offspring population lambda_ alpha sigma O P :
  st_lists s !! offspring = Some O →
  st_lists s !! population = Some P →
  Forall (has_fitness (st_fitness s)) (P ++ O) →
  is_Some (st_fitness_sharing s) →
  ∃ l s' R,
    lambda_plus_mu_elimination distance power
      offspring population lambda_ alpha sigma s = Ok l s'
    ∧ st_lists s' !! l = Some R
    ∧ (0 ≤ lambda_ →
       Z.of_nat (length R) = Z.min lambda_ (Z.of_nat (length (P ++ O))))
    ∧ (lambda_ < 0 →
       Z.of_nat (length R)
       = Z.max 0 (Z.of_nat (length (P ++ O)) + lambda_)).
Proof.
  intros HO HP HF [b Hb].
  destruct (returns_inv _ _ _
              (lambda_plus_mu_elimination_returns distance power
                 s offspring population lambda_ alpha sigma O P b
                 HO HP HF Hb))
    as (l & s' & Hrun & Hl & _).
  exists l, s', (lambda_plus_mu_result (st_fitness s) P O lambda_).
  split_and!; [done | done | |]; intros Hlambda;
    unfold lambda_plus_mu_result;
    rewrite py_slice_prefix, length_take, length_sort_by;
    unfold slice_bound.
  - rewrite (proj2 (Z.ltb_ge _ _)) by lia. lia.
  - rewrite (proj2 (Z.ltb_lt _ _)) by lia. lia.
Qed.
End FurtherProperties.

(** X15: when there are offspring, no more than parents, and [lambda_] is
    at least the size of the population, [replace_worst] keeps the size of
    the population: the survivors are the population without its last
    [len(offspring)] members together with all the offspring. *)
Theorem replace_worst_generation s offspring population lambda_ O P :
  st_lists s !! offspring = Some O →
  st_lists s !! population = Some P →
  Forall (has_fitness (st_fitness s)) (replace_worst_combined P O) →
  O ≠ [] →
  (length O ≤ length P)%nat →
  Z.of_nat (length P) ≤ lambda_ →
  ∃ l s' R,
    replace_worst offspring population lambda_ s = Ok l s'
    ∧ st_lists s' !! l = Some R
    ∧ R ≡ₚ take (length P - length O) P ++ O
    ∧ length R = length P.
Proof.
  intros HO HP HF Hne HOP Hlambda.
  destruct (returns_inv _ _ _
              (replace_worst_returns s offspring population lambda_ O P
                 HO HP HF))
    as (l & s' & Hrun & Hl & _).
  assert (replace_worst_combined P O = take (length P - length O) P ++ O)
    as HC.
  { unfold replace_worst_combined. rewrite py_slice_drop_last.
    destruct (decide (length O = 0%nat)) as [H0|]; [|done].
    destruct O; [by destruct Hne | discriminate H0]. }
  assert (length (replace_worst_combined P O) = length P) as Hlen.
  { rewrite HC, length_app, length_take. lia. }
  assert (replace_worst_result (st_fitness s) P O lambda_
          = sort_by (fitness_of (st_fitness s)) (replace_worst_combined P O))
    as Hall.
  { unfold replace_worst_result. rewrite py_slice_from_0. apply take_ge.
    rewrite length_sort_by, Hlen. unfold slice_bound.
    rewrite (proj2 (Z.ltb_ge _ _)) by lia. lia. }
  rewrite Hall in Hl.
  exists l, s', (sort_by (fitness_of (st_fitness s))
                   (replace_worst_combined P O)).
  split_and!; [done | done | by rewrite sort_by_perm, HC |].
  by rewrite length_sort_by.
Qed.

(** ** The shared fitnesses after [lambda_plus_mu_elimination] *)

Section SharingLoop.
Context (distance : nat → nat → Q) (power : Q → Q → Q).

Lemma shared_fitness_after_cons F R alpha sigma idx idxs m :
  shared_fitness_after distance power F R alpha sigma (idx :: idxs) m
  = shared_fitness_after distance power F R alpha sigma idxs
      (shared_fitness_after distance power F R alpha sigma [idx] m).
Proof. done. Qed.

Lemma shared_fitness_update_exact s combined R alpha sigma idx :
  st_lists s !! combined = Some R →
  Forall (has_fitness (st_fitness s)) R →
  0 ≤ idx < Z.of_nat (length R) →
  returns (shared_fitness_update distance power combined alpha sigma idx) s
    (λ _ s',
       frame false s s'
       ∧ st_shared_fitness s'
         = shared_fitness_after distance power (st_fitness s) R alpha sigma
             [idx] (st_shared_fitness s)).
Proof.
  intros HC HF Hidx. unfold shared_fitness_update.
  destruct (py_index_in_range R idx Hidx) as (self & Hself & Hin).
  apply returns_bind. eapply returns_list_getitem; [done..|].
  apply returns_bind. eapply returns_list_slice; [done|].
  intros before s1 H1.
  apply returns_bind. eapply returns_list_slice; [by eapply new_at_old|].
  intros after s2 H2.
  apply returns_bind. eapply returns_list_add;
    [eapply new_at_old; [apply H2 | apply H1] | apply H2 |].
  intros others s3 H3. unfold calc_shared_fitness.
  apply returns_bind. eapply returns_read_list; [apply H3|].
  assert (frame true s s3) as F3.
  { etrans; [apply H1|]. etrans; [apply H2 | apply H3]. }
  rewrite Forall_forall in HF. destruct (HF self Hin) as [q Hq].
  apply returns_bind. eapply returns_getattr_fitness.
  { rewrite (frame_fitness _ _ _ F3). exact Hq. }
  apply returns_setattr_shared_fitness. split.
  - by apply frame_shared_fitness, frame_weaken.
  - simpl. rewrite Hself. rewrite (frame_shared _ _ _ F3) by done.
    unfold fitness_of. by rewrite Hq.
Qed.

Lemma shared_fitness_loop_exact s combined R alpha sigma idxs :
  st_lists s !! combined = Some R →
  Forall (has_fitness (st_fitness s)) R →
  Forall (λ idx, 0 ≤ idx < Z.of_nat (length R)) idxs →
  returns (for_each idxs (shared_fitness_update distance power
                            combined alpha sigma)) s
    (λ _ s',
       frame false s s'
       ∧ st_shared_fitness s'
         = shared_fitness_after distance power (st_fitness s) R alpha sigma
             idxs (st_shared_fitness s)).
Proof.
  intros HC HF Hidxs. revert s HC HF.
  induction Hidxs as [|idx idxs Hidx _ IH]; intros s HC HF; simpl.
  { by apply returns_ret. }
  apply returns_bind.
  eapply returns_mono; [|by eapply shared_fitness_update_exact].
  intros [] s1 [F1 Hm1]. simpl. eapply returns_mono; [|apply IH].
  - intros [] s2 [F2 Hm2]. split; [by etrans|].
    by rewrite Hm2, Hm1, (frame_fitness _ _ _ F1), shared_fitness_after_cons.
  - by eapply frame_lookup.
  - by rewrite (frame_fitness _ _ _ F1).
Qed.

(** An individual that sits at none of the indices keeps its shared
    fitness. *)
Lemma shared_fitness_after_other F R alpha sigma idxs m x :
  Forall (λ idx, py_index R idx ≠ Some x) idxs →
  shared_fitness_after distance power F R alpha sigma idxs m !! x = m !! x.
Proof.
  intros H. revert m. induction H as [|idx idxs Hidx _ IH]; intros m; [done|].
  rewrite shared_fitness_after_cons, IH. unfold shared_fitness_after. simpl.
  destruct (py_index R idx) as [y|]; [|done].
  apply lookup_insert_ne. congruence.
Qed.

(** When the survivors are distinct, the individual at one of the indices
    has the shared fitness that the iteration at this index gave it. *)
Lemma shared_fitness_after_at F R alpha sigma idxs m (i : nat) x :
  NoDup R →
  Forall (λ idx, 0 ≤ idx) idxs →
  Z.of_nat i ∈ idxs →
  R !! i = Some x →
  shared_fitness_after distance power F R alpha sigma idxs m !! x
  = Some (shared_fitness_value distance power (fitness_of F x) x
            (py_slice R None (Some (Z.of_nat i))
             ++ py_slice R (Some (Z.of_nat i + 1)) None) alpha sigma).
Proof.
  intros Hnodup Hpos Hi Hx. revert m.
  induction Hpos as [|idx idxs Hidx Hpos IH]; intros m.
  { by apply elem_of_nil in Hi. }
  destruct (decide (Z.of_nat i ∈ idxs)) as [Hin|Hnotin].
  { rewrite shared_fitness_after_cons. by apply IH. }
  apply elem_of_cons in Hi as [<-|Hi]; [|done].
  rewrite shared_fitness_after_cons, shared_fitness_after_other.
  { unfold shared_fitness_after. simpl. rewrite py_index_nat, Hx.
    apply lookup_insert_eq. }
  apply Forall_forall. intros j Hj Hjx.
  rewrite Forall_forall in Hpos. specialize (Hpos j Hj).
  rewrite <-(Z2Nat.id j), py_index_nat in Hjx by lia.
  assert (Z.to_nat j = i) as <- by (eapply NoDup_lookup; done).
  rewrite Z2Nat.id in Hnotin by lia. done.
Qed.

Lemma lambda_plus_mu_elimination_sharing_returns
    s offspring population lambda_ alpha sigma O P :
  st_lists s !! offspring = Some O →
  st_lists s !! population = Some P →
  Forall (has_fitness (st_fitness s)) (P ++ O) →
  st_fitness_sharing s = Some true →
  returns (lambda_plus_mu_elimination distance power
             offspring population lambda_ alpha sigma) s (λ l s',
    st_lists s' !! l = Some (lambda_plus_mu_result (st_fitness s) P O lambda_)
    ∧ st_shared_fitness s'
      = shared_fitness_after distance power (st_fitness s)
          (lambda_plus_mu_result (st_fitness s) P O lambda_) alpha sigma
          (py_range 1 (Z.of_nat (length (lambda_plus_mu_result
                                           (st_fitness s) P O lambda_))))
          (st_shared_fitness s)).
Proof.
  intros HO HP HF Hb. unfold lambda_plus_mu_elimination.
  apply returns_bind. eapply returns_list_add; [done..|].
  intros c1 s1 H1.
  apply returns_bind. eapply returns_sorted_by_fitness; [apply H1 | |].
  { by rewrite (new_at_fitness _ _ _ _ H1). }
  intros c2 s2 H2. rewrite (new_at_fitness _ _ _ _ H1) in H2.
  apply returns_bind. eapply returns_list_slice; [apply H2|].
  intros c3 s3 H3.
  fold (lambda_plus_mu_result (st_fitness s) P O lambda_) in H3.
  assert (frame true s s3) as F3.
  { etrans; [apply H1|]. etrans; [apply H2 | apply H3]. }
  apply returns_bind. eapply returns_global_fitness_sharing.
  { by rewrite (frame_global _ _ _ F3). }
  apply returns_bind.
  apply returns_bind. eapply returns_list_len; [apply H3|].
  eapply returns_mono; [|eapply shared_fitness_loop_exact].
  - intros [] s4 [F4 Hm4]. simpl. apply returns_ret. split.
    + eapply frame_lookup; [done | apply H3].
    + by rewrite Hm4, (frame_fitness _ _ _ F3),
        (frame_shared _ _ _ F3).
  - apply H3.
  - rewrite (frame_fitness _ _ _ F3). apply Forall_forall.
    intros x Hx%elem_of_py_slice%elem_of_sort_by.
    by apply (proj1 (Forall_forall _ _) HF).
  - eapply Forall_impl; [apply py_range_bounds|]. simpl. lia.
Qed.

Lemma py_slice_before {A} (l : list A) (i : nat) :
  py_slice l None (Some (Z.of_nat i)) = take i l.
Proof.
  rewrite py_slice_prefix. unfold slice_bound.
  rewrite (proj2 (Z.ltb_ge _ _)) by lia. rewrite Nat2Z.id.
  destruct (decide (i ≤ length l)%nat).
  - f_equal. lia.
  - rewrite !take_ge; [done | lia..].
Qed.

Lemma py_slice_after {A} (l : list A) (i : nat) :
  py_slice l (Some (Z.of_nat i + 1)) None = drop (S i) l.
Proof.
  unfold py_slice, slice_bound. simpl.
  rewrite (proj2 (Z.ltb_ge _ _)) by lia.
  replace (Z.to_nat (Z.of_nat i + 1)) with (S i) by lia.
  rewrite take_ge by (rewrite length_drop; lia).
  destruct (decide (S i ≤ length l)%nat).
  - f_equal. lia.
  - rewrite !drop_ge; [done | lia..].
Qed.

(** X16: with [fitness_sharing] true and distinct individuals, the loop of
    [lambda_plus_mu_elimination] calls [calc_shared_fitness] once on every
    survivor but the first, with all the other survivors, those before and
    those after it, as the others; the first survivor and every individual
    that does not survive keep the shared fitness they had.  The value that
    the call stores is that of the method as modelled from the spec. *)
Theorem lambda_plus_mu_elimination_shared_fitness
    s offspring population lambda_ alpha sigma O P :
  st_lists s !! offspring = Some O →
  st_lists s !! population = Some P →
  Forall (has_fitness (st_fitness s)) (P ++ O) →
  st_fitness_sharing s = Some true →
  NoDup (P ++ O) →
  ∃ l s' R,
    lambda_plus_mu_elimination distance power
      offspring population lambda_ alpha sigma s = Ok l s'
    ∧ st_lists s' !! l = Some R
    ∧ (∀ i x, (1 ≤ i)%nat → R !! i = Some x →
         st_shared_fitness s' !! x
         = Some (shared_fitness_value distance power
                   (fitness_of (st_fitness s) x) x
                   (take i R ++ drop (S i) R) alpha sigma))
    ∧ (∀ x, (∀ i, (1 ≤ i)%nat → R !! i ≠ Some x) →
         st_shared_fitness s' !! x = st_shared_fitness s !! x).
Proof.
  intros HO HP HF Hb Hnodup.
  destruct (returns_inv _ _ _
              (lambda_plus_mu_elimination_sharing_returns
                 s offspring population lambda_ alpha sigma O P
                 HO HP HF Hb))
    as (l & s' & Hrun & Hl & Hm).
  set (R := lambda_plus_mu_result (st_fitness s) P O lambda_) in *.
  assert (NoDup R) as HR.
  { eapply sublist_NoDup; [|apply py_slice_sublist].
    by rewrite sort_by_perm. }
  exists l, s', R. split_and!; [done | done | |].
  - intros i x Hi Hx. rewrite Hm.
    rewrite <-py_slice_before, <-py_slice_after.
    apply shared_fitness_after_at; [done | | | done].
    + eapply Forall_impl; [apply py_range_bounds|]. simpl. lia.
    + pose proof (lookup_lt_Some _ _ _ Hx) as Hlt.
      unfold py_range. apply list_elem_of_fmap. exists (i - 1)%nat.
      split; [lia|]. apply elem_of_seq. lia.
  - intros x Hx. rewrite Hm. apply shared_fitness_after_other.
    eapply Forall_impl; [apply py_range_bounds|]. intros idx Hidx Hidxx.
    simpl in Hidx. rewrite <-(Z2Nat.id idx), py_index_nat in Hidxx by lia.
    apply (Hx (Z.to_nat idx)); [lia | done].
Qed.
End SharingLoop.

(** * The further properties on the example inputs *)

(** Individual [7] has no fitness. *)
Lemma missing_fitness_raises_witness :
  raises (fitness_sharing_elimination example_distance example_power
            1 0 2 1 1)
    (example_state [0; 7]%nat [3]%nat None (λ _, 0%nat)) AttributeError
  ∧ raises (lambda_plus_mu_elimination example_distance example_power
              1 0 2 1 1)
      (example_state [0; 7]%nat [3]%nat None (λ _, 0%nat)) AttributeError
  ∧ raises (k_tournament_elimination 1 0 2 3)
      (example_state [0; 7]%nat [3]%nat None (λ _, 0%nat)) AttributeError.
Proof.
  apply (missing_fitness_raises example_distance example_power
           (example_state [0; 7]%nat [3]%nat None (λ _, 0%nat))
           1%nat 0%nat 2 1 1 3 [3]%nat [0; 7]%nat);
    [reflexivity | reflexivity |].
  apply Exists_cons_tl, Exists_cons_hd. reflexivity.
Defined.

Lemma replace_worst_missing_fitness_raises_witness :
  raises (replace_worst 1 0 2)
    (example_state [0; 1]%nat [7]%nat None (λ _, 0%nat)) AttributeError.
Proof.
  apply (replace_worst_missing_fitness_raises
           (example_state [0; 1]%nat [7]%nat None (λ _, 0%nat))
           1%nat 0%nat 2 [7]%nat [0; 1]%nat);
    [reflexivity | reflexivity |].
  apply Exists_cons_tl, Exists_cons_hd. reflexivity.
Defined.

Lemma empty_pool_raises_witness :
  raises (fitness_sharing_elimination example_distance example_power
            1 0 2 1 1)
    (example_state [] [] None (λ _, 0%nat)) IndexError
  ∧ raises (k_tournament_elimination 1 0 2 3)
      (example_state [] [] None (λ _, 0%nat)) IndexError.
Proof.
  apply (empty_pool_raises example_distance example_power
           (example_state [] [] None (λ _, 0%nat)) 1%nat 0%nat 2 1 1 3);
    reflexivity.
Defined.

Lemma lambda_plus_mu_elimination_keeps_best_witness :
  ∃ l s' R rest,
    lambda_plus_mu_elimination example_distance example_power 1 0 2 1 1
      (example_state [0; 1; 2]%nat [3; 4]%nat (Some true) (λ _, 0%nat))
    = Ok l s'
    ∧ st_lists s' !! l = Some R
    ∧ R ++ rest ≡ₚ ([0; 1; 2] ++ [3; 4])%nat
    ∧ ∀ x y, x ∈ R → y ∈ rest →
        (fitness_of example_fitness x <= fitness_of example_fitness y)%Q.
Proof.
  apply (lambda_plus_mu_elimination_keeps_best
           example_distance example_power
           (example_state [0; 1; 2]%nat [3; 4]%nat (Some true) (λ _, 0%nat))
           1%nat 0%nat 2 1 1 [3; 4]%nat [0; 1; 2]%nat);
    [reflexivity | reflexivity | example_fitness_defined | by eexists].
Defined.

Lemma replace_worst_keeps_best_witness :
  ∃ l s' R rest,
    replace_worst 1 0 2
      (example_state [0; 1; 7]%nat [3]%nat None (λ _, 0%nat)) = Ok l s'
    ∧ st_lists s' !! l = Some R
    ∧ R ++ rest ≡ₚ replace_worst_combined [0; 1; 7]%nat [3]%nat
    ∧ ∀ x y, x ∈ R → y ∈ rest →
        (fitness_of example_fitness x <= fitness_of example_fitness y)%Q.
Proof.
  apply (replace_worst_keeps_best
           (example_state [0; 1; 7]%nat [3]%nat None (λ _, 0%nat))
           1%nat 0%nat 2 [3]%nat [0; 1; 7]%nat);
    [reflexivity | reflexivity | example_fitness_defined].
Defined.

Lemma lambda_plus_mu_elimination_ties_witness :
  ∃ l s' R,
    lambda_plus_mu_elimination example_distance example_power 1 0 2 1 1
      (example_state [0; 1; 2]%nat [3; 4]%nat (Some false) (λ _, 0%nat))
    = Ok l s'
    ∧ st_lists s' !! l = Some R
    ∧ filter (λ x, Qeq_bool (fitness_of example_fitness x) 3 = true) R
      `prefix_of`
      filter (λ x, Qeq_bool (fitness_of example_fitness x) 3 = true)
        [0; 1; 2]%nat
      ++ filter (λ x, Qeq_bool (fitness_of example_fitness x) 3 = true)
           [3; 4]%nat.
Proof.
  apply (lambda_plus_mu_elimination_ties example_distance example_power
           (example_state [0; 1; 2]%nat [3; 4]%nat (Some false) (λ _, 0%nat))
           1%nat 0%nat 2 1 1 [3; 4]%nat [0; 1; 2]%nat 3%Q);
    [reflexivity | reflexivity | example_fitness_defined | by eexists].
Defined.

Lemma k_tournament_elimination_no_tournament_witness :
  ∃ l s' c0,
    k_tournament_elimination 1 0 0 0
      (example_state [0; 1; 2]%nat [3; 4]%nat None (λ _, 0%nat)) = Ok l s'
    ∧ st_lists s' !! l = Some [c0]
    ∧ head (sort_by (fitness_of example_fitness) ([0; 1; 2] ++ [3; 4])%nat)
      = Some c0
    ∧ st_drawn s' = 0%nat.
Proof.
  apply (k_tournament_elimination_no_tournament
           (example_state [0; 1; 2]%nat [3; 4]%nat None (λ _, 0%nat))
           1%nat 0%nat 0 0 [3; 4]%nat [0; 1; 2]%nat);
    [reflexivity | reflexivity | example_fitness_defined | done | lia].
Defined.

Lemma fitness_sharing_elimination_seed_only_witness :
  ∃ l s' c0,
    fitness_sharing_elimination example_distance example_power 1 0 (-3) 1 1
      (example_state [0; 1; 2]%nat [3; 4]%nat None (λ _, 0%nat)) = Ok l s'
    ∧ st_lists s' !! l = Some [c0]
    ∧ head (sort_by (fitness_of example_fitness) ([0; 1; 2] ++ [3; 4])%nat)
      = Some c0.
Proof.
  apply (fitness_sharing_elimination_seed_only
           example_distance example_power
           (example_state [0; 1; 2]%nat [3; 4]%nat None (λ _, 0%nat))
           1%nat 0%nat (-3) 1 1 [3; 4]%nat [0; 1; 2]%nat);
    [reflexivity | reflexivity | example_fitness_defined | done | lia].
Defined.

Lemma fitness_sharing_elimination_survivors_witness :
  ∃ l s' c0 R,
    fitness_sharing_elimination example_distance example_power 1 0 3 1 1
      (example_state [0; 1; 2]%nat [3; 4]%nat None (λ _, 0%nat)) = Ok l s'
    ∧ st_lists s' !! l = Some (c0 :: R)
    ∧ Forall (λ x, (fitness_of example_fitness c0
                    <= fitness_of example_fitness x)%Q)
        ([0; 1; 2] ++ [3; 4])%nat
    ∧ Forall (λ x, x ∈ [0; 1; 2]%nat ∨ x ∈ [3; 4]%nat) (c0 :: R).
Proof.
  apply (fitness_sharing_elimination_survivors
           example_distance example_power
           (example_state [0; 1; 2]%nat [3; 4]%nat None (λ _, 0%nat))
           1%nat 0%nat 3 1 1 [3; 4]%nat [0; 1; 2]%nat);
    [reflexivity | reflexivity | example_fitness_defined | done].
Defined.

Lemma lambda_plus_mu_elimination_survivors_depend_on_fitness_witness :
  ∃ l1 s1' l2 s2' R,
    lambda_plus_mu_elimination example_distance example_power 1 0 2 1 1
      (example_state [0; 1; 2]%nat [3; 4]%nat (Some true) (λ _, 0%nat))
    = Ok l1 s1'
    ∧ lambda_plus_mu_elimination example_distance example_power 1 0 2 2 5
        (example_state [0; 1; 2]%nat [3; 4]%nat (Some false) (λ _, 1%nat))
      = Ok l2 s2'
    ∧ st_lists s1' !! l1 = Some R
    ∧ st_lists s2' !! l2 = Some R.
Proof.
  apply (lambda_plus_mu_elimination_survivors_depend_on_fitness
           example_distance example_power
           (example_state [0; 1; 2]%nat [3; 4]%nat (Some true) (λ _, 0%nat))
           (example_state [0; 1; 2]%nat [3; 4]%nat (Some false) (λ _, 1%nat))
           1%nat 0%nat 1%nat 0%nat 2 1 1 2 5 [3; 4]%nat [0; 1; 2]%nat);
    [reflexivity | reflexivity | reflexivity | reflexivity | reflexivity
    | example_fitness_defined | by eexists | by eexists].
Defined.

Lemma lambda_plus_mu_elimination_plain_keeps_shared_fitness_witness :
  ∃ l s',
    lambda_plus_mu_elimination example_distance example_power 1 0 2 1 1
      (example_state [0; 1; 2]%nat [3; 4]%nat (Some false) (λ _, 0%nat))
    = Ok l s'
    ∧ st_shared_fitness s' = ∅.
Proof.
  apply (lambda_plus_mu_elimination_plain_keeps_shared_fitness
           example_distance example_power
           (example_state [0; 1; 2]%nat [3; 4]%nat (Some false) (λ _, 0%nat))
           1%nat 0%nat 2 1 1 [3; 4]%nat [0; 1; 2]%nat);
    [reflexivity | reflexivity | example_fitness_defined | reflexivity].
Defined.

Lemma lambda_plus_mu_elimination_sorted_population_witness :
  ∃ l s',
    lambda_plus_mu_elimination example_distance example_power 1 0 3 1 1
      (example_state [3; 0; 4]%nat [] (Some true) (λ _, 0%nat)) = Ok l s'
    ∧ st_lists s' !! l = Some [3; 0; 4]%nat.
Proof.
  apply (lambda_plus_mu_elimination_sorted_population
           example_distance example_power
           (example_state [3; 0; 4]%nat [] (Some true) (λ _, 0%nat))
           1%nat 0%nat 3 1 1 [3; 0; 4]%nat);
    [reflexivity | reflexivity | example_fitness_defined | by eexists
    | | simpl; lia].
  repeat constructor; apply Qle_bool_iff; reflexivity.
Defined.

Lemma lambda_plus_mu_elimination_length_witness :
  ∃ l s' R,
    lambda_plus_mu_elimination example_distance example_power 1 0 (-2) 1 1
      (example_state [0; 1; 2]%nat [3; 4]%nat (Some false) (λ _, 0%nat))
    = Ok l s'
    ∧ st_lists s' !! l = Some R
    ∧ (0 ≤ -2 →
       Z.of_nat (length R)
       = Z.min (-2) (Z.of_nat (length ([0; 1; 2] ++ [3; 4])%nat)))
    ∧ (-2 < 0 →
       Z.of_nat (length R)
       = Z.max 0 (Z.of_nat (length ([0; 1; 2] ++ [3; 4])%nat) + -2)).
Proof.
  apply (lambda_plus_mu_elimination_length example_distance example_power
           (example_state [0; 1; 2]%nat [3; 4]%nat (Some false) (λ _, 0%nat))
           1%nat 0%nat (-2) 1 1 [3; 4]%nat [0; 1; 2]%nat);
    [reflexivity | reflexivity | example_fitness_defined | by eexists].
Defined.

Lemma replace_worst_generation_witness :
  ∃ l s' R,
    replace_worst 1 0 3
      (example_state [0; 1; 2]%nat [3; 4]%nat None (λ _, 0%nat)) = Ok l s'
    ∧ st_lists s' !! l = Some R
    ∧ R ≡ₚ take (length [0; 1; 2]%nat - length [3; 4]%nat) [0; 1; 2]%nat
           ++ [3; 4]%nat
    ∧ length R = length [0; 1; 2]%nat.
Proof.
  apply (replace_worst_generation
           (example_state [0; 1; 2]%nat [3; 4]%nat None (λ _, 0%nat))
           1%nat 0%nat 3 [3; 4]%nat [0; 1; 2]%nat);
    [reflexivity | reflexivity | example_fitness_defined | done
    | simpl; lia | simpl; lia].
Defined.

Lemma lambda_plus_mu_elimination_shared_fitness_witness :
  ∃ l s' R,
    lambda_plus_mu_elimination example_distance example_power 1 0 3 1 1
      (example_state [0; 1; 2]%nat [3; 4]%nat (Some true) (λ _, 0%nat))
    = Ok l s'
    ∧ st_lists s' !! l = Some R
    ∧ (∀ i x, (1 ≤ i)%nat → R !! i = Some x →
         st_shared_fitness s' !! x
         = Some (shared_fitness_value example_distance example_power
                   (fitness_of example_fitness x) x
                   (take i R ++ drop (S i) R) 1 1))
    ∧ (∀ x, (∀ i, (1 ≤ i)%nat → R !! i ≠ Some x) →
         st_shared_fitness s' !! x = (∅ : gmap nat Q) !! x).
Proof.
  apply (lambda_plus_mu_elimination_shared_fitness
           example_distance example_power
           (example_state [0; 1; 2]%nat [3; 4]%nat (Some true) (λ _, 0%nat))
           1%nat 0%nat 3 1 1 [3; 4]%nat [0; 1; 2]%nat);
    [reflexivity | reflexivity | example_fitness_defined | reflexivity |].
  apply (bool_decide_unpack _). vm_compute. exact I.
Defined.
